(** * WebLLM chat: model-loading fallback loop and chat session controller

    A shallow embedding of the React component [App] of the repository, in
    its two versions:

    - [src/App.jsx]: the loader always starts at the head of the fallback
      list;
    - the [App] that follows the [Message] component in
      [src/components/Message.jsx]: the loader starts at the selected model
      and the effect is re-run on model switch.

    React state is a record ([AppState]); every [setX] of the source is a
    function on that record.  An [async] function is cut at its [await]: the
    part that runs synchronously returns the new state together with what
    it is waiting for, and one function per continuation takes the settled
    promise.  The local variable [cancelled] of the loading effect and the
    index of the attempt it awaits form a [Closure]. *)

From Stdlib Require Import List Bool Arith Lia ZArith NArith String Ascii.
From Stdlib Require Import Floats.PrimFloat Floats.FloatOps Floats.SpecFloat.
From Stdlib Require Import Numbers.Cyclic.Int63.Uint63.
Import ListNotations.

(** ** JavaScript values used by the component *)

Module Js.

(** A JavaScript string is a sequence of UTF-16 code units. *)
Definition JsString := list N.

Definition js (s : string) : JsString :=
  map N_of_ascii (list_ascii_of_string s).

(** [a === b] on strings. *)
Fixpoint strictEq (a b : JsString) : bool :=
  match a, b with
  | [], [] => true
  | x :: a', y :: b' => N.eqb x y && strictEq a' b'
  | _, _ => false
  end.

(** Truthiness of a string: [!value] is [negb (truthy value)]. *)
Definition truthy (s : JsString) : bool :=
  match s with
  | [] => false
  | _ :: _ => true
  end.

(** ECMAScript [WhiteSpace] and [LineTerminator] code units, the ones
    [String.prototype.trim] strips. *)
Definition isWhiteSpace (c : N) : bool :=
  ((9 <=? c) && (c <=? 13)          (* TAB, LF, VT, FF, CR *)
   || (c =? 32)                     (* SPACE *)
   || (c =? 160)                    (* NO-BREAK SPACE *)
   || (c =? 5760)                   (* U+1680 *)
   || ((8192 <=? c) && (c <=? 8202)) (* U+2000 .. U+200A *)
   || (c =? 8232) || (c =? 8233)    (* LINE / PARAGRAPH SEPARATOR *)
   || (c =? 8239) || (c =? 8287)    (* U+202F, U+205F *)
   || (c =? 12288)                  (* U+3000 *)
   || (c =? 65279))%N.              (* U+FEFF *)

Fixpoint trimStart (s : JsString) : JsString :=
  match s with
  | [] => []
  | c :: s' => if isWhiteSpace c then trimStart s' else s
  end.

Definition trimEnd (s : JsString) : JsString := rev (trimStart (rev s)).

(** [s.trim()] *)
Definition trim (s : JsString) : JsString := trimEnd (trimStart s).

(** The claim's words: the text is empty or made of white space only. *)
Definition whitespaceOnly (s : JsString) : bool := forallb isWhiteSpace s.

(** Canonicalisation of a code unit under the [i] flag (no [u] flag).  The
    patterns below are ASCII, and the standard never maps a code unit above
    127 to one below 128, so folding the ASCII letters is exact for them. *)
Definition canonicalize (c : N) : N :=
  if ((97 <=? c) && (c <=? 122))%N then (c - 32)%N else c.

Fixpoint matchesAt (pat s : JsString) : bool :=
  match pat, s with
  | [], _ => true
  | _ :: _, [] => false
  | p :: pat', c :: s' =>
      N.eqb (canonicalize p) (canonicalize c) && matchesAt pat' s'
  end.

(** Does the literal [pat] occur somewhere in [s], ignoring ASCII case? *)
Fixpoint searchIgnoreCase (pat s : JsString) : bool :=
  matchesAt pat s ||
  match s with
  | [] => false
  | _ :: s' => searchIgnoreCase pat s'
  end.

(** A JavaScript number is a binary64 float. *)
Definition Number := float.

(** [Math.round]: the nearest integral number, ties towards +infinity;
    NaN, the infinities and the zeros are returned as they are, and a
    result that is zero keeps the sign of the argument. *)
Definition Math_round (x : Number) : Number :=
  match Prim2SF x with
  | S754_finite s m e =>
      if (0 <=? e)%Z then x
      else
        let n := if s then Z.neg m else Z.pos m in
        let r := ((2 * n + 2 ^ (- e)) / 2 ^ (1 - e))%Z in
        if (r =? 0)%Z then (if s then (-0)%float else 0%float)
        else if (r <? 0)%Z
             then PrimFloat.opp (PrimFloat.of_uint63 (Uint63.of_Z (- r)))
             else PrimFloat.of_uint63 (Uint63.of_Z r)
  | _ => x
  end.

(** A thrown value, as far as the component looks at it: its [message]
    property when it has one ([err?.message]) and its conversion to a
    string ([String(err)]). *)
Record Thrown := mkThrown {
  message : option JsString;
  toString : JsString
}.

(** [String(err?.message || err)], also what the template literal
    [`${err?.message || err}`] interpolates. *)
Definition messageOrSelf (err : Thrown) : JsString :=
  match message err with
  | Some m => if truthy m then m else toString err
  | None => toString err
  end.

End Js.

Import Js.

(** ** Data model *)

(** [role] of a transcript entry: the strings ["user"] and ["system"]. *)
Inductive Role := user | system.

(** A transcript entry.  [pending] is absent ([None]) on the entries the
    component creates without it. *)
Record Message := mkMessage {
  id : JsString;
  role : Role;
  content : JsString;
  pending : option bool
}.

(** The handle [webllm.CreateMLCEngine] resolves to; the component never
    looks inside it. *)
Inductive Engine := EngineHandle (n : nat).

(** The component's state: one field per [useState], and the array behind
    [triedModelsRef].  [progressMessage] and [reloadToken] exist in the
    second version only; [src/App.jsx] never writes them. *)
Record AppState := mkAppState {
  messages : list Message;
  input : JsString;
  loading : bool;
  engine : option Engine;
  isDownloading : bool;
  downloadProgress : Number;
  progressMessage : JsString;
  modelName : JsString;
  reloadToken : nat;
  error : option JsString;
  triedModelsRef : list JsString
}.

Definition setMessages (f : list Message -> list Message) (a : AppState) :=
  mkAppState (f (messages a)) (input a) (loading a) (engine a)
    (isDownloading a) (downloadProgress a) (progressMessage a) (modelName a)
    (reloadToken a) (error a) (triedModelsRef a).

Definition setInput (v : JsString) (a : AppState) :=
  mkAppState (messages a) v (loading a) (engine a)
    (isDownloading a) (downloadProgress a) (progressMessage a) (modelName a)
    (reloadToken a) (error a) (triedModelsRef a).

Definition setLoading (v : bool) (a : AppState) :=
  mkAppState (messages a) (input a) v (engine a)
    (isDownloading a) (downloadProgress a) (progressMessage a) (modelName a)
    (reloadToken a) (error a) (triedModelsRef a).

Definition setEngine (v : option Engine) (a : AppState) :=
  mkAppState (messages a) (input a) (loading a) v
    (isDownloading a) (downloadProgress a) (progressMessage a) (modelName a)
    (reloadToken a) (error a) (triedModelsRef a).

Definition setIsDownloading (v : bool) (a : AppState) :=
  mkAppState (messages a) (input a) (loading a) (engine a)
    v (downloadProgress a) (progressMessage a) (modelName a)
    (reloadToken a) (error a) (triedModelsRef a).

Definition setDownloadProgress (v : Number) (a : AppState) :=
  mkAppState (messages a) (input a) (loading a) (engine a)
    (isDownloading a) v (progressMessage a) (modelName a)
    (reloadToken a) (error a) (triedModelsRef a).

Definition setProgressMessage (v : JsString) (a : AppState) :=
  mkAppState (messages a) (input a) (loading a) (engine a)
    (isDownloading a) (downloadProgress a) v (modelName a)
    (reloadToken a) (error a) (triedModelsRef a).

Definition setModelName (v : JsString) (a : AppState) :=
  mkAppState (messages a) (input a) (loading a) (engine a)
    (isDownloading a) (downloadProgress a) (progressMessage a) v
    (reloadToken a) (error a) (triedModelsRef a).

Definition setError (v : option JsString) (a : AppState) :=
  mkAppState (messages a) (input a) (loading a) (engine a)
    (isDownloading a) (downloadProgress a) (progressMessage a) (modelName a)
    (reloadToken a) v (triedModelsRef a).

Definition setReloadToken (f : nat -> nat) (a : AppState) :=
  mkAppState (messages a) (input a) (loading a) (engine a)
    (isDownloading a) (downloadProgress a) (progressMessage a) (modelName a)
    (f (reloadToken a)) (error a) (triedModelsRef a).

(** [triedModelsRef.current.push(m)] *)
Definition triedModelsRef_push (m : JsString) (a : AppState) :=
  mkAppState (messages a) (input a) (loading a) (engine a)
    (isDownloading a) (downloadProgress a) (progressMessage a) (modelName a)
    (reloadToken a) (error a) (triedModelsRef a ++ [m]).

(** The argument of [initProgressCallback]: [progress] may be missing
    ([progressObj.progress ?? 0]) and so may [text]. *)
Record ProgressObj := mkProgressObj {
  progress : option Number;
  text : option JsString
}.

(** The component together with the one thing it does to the outside:
    [createCalls] lists the model ids [webllm.CreateMLCEngine] was called
    with, oldest first. *)
Record World := mkWorld {
  app : AppState;
  createCalls : list JsString
}.

Definition onApp (f : AppState -> AppState) (w : World) : World :=
  mkWorld (f (app w)) (createCalls w).

(** The call [webllm.CreateMLCEngine(selectedModel, ...)]. *)
Definition CreateMLCEngine (selectedModel : JsString) (w : World) : World :=
  mkWorld (app w) (createCalls w ++ [selectedModel]).

(** The variables of one run of the loading effect: its [cancelled] flag,
    and the index [nameIdx] of the attempt whose promise it awaits, if
    any. *)
Record Closure := mkClosure {
  cancelled : bool;
  awaiting : option nat
}.

(** What the engine factory does to an attempt, and the effect's cleanup
    function being run by React. *)
Inductive LoadEvent :=
| Progress (progressObj : ProgressObj)
| Resolved (created : Engine)
| Rejected (err : Thrown)
| Cleanup.

(** The heuristic of both versions:
    [/device lost|insufficient memory|Device was lost/i.test(message)]. *)
Definition resourceExhaustion (message : JsString) : bool :=
  searchIgnoreCase (js "device lost") message
  || searchIgnoreCase (js "insufficient memory") message
  || searchIgnoreCase (js "Device was lost") message.

(** [Math.round((progressObj.progress ?? 0) * 100)] *)
Definition percentOf (progressObj : ProgressObj) : Number :=
  Math_round
    (PrimFloat.mul
       (match progress progressObj with Some p => p | None => 0%float end)
       100%float).

(** What the loading screen shows: both versions render the state as it is,
    [{downloadProgress}%] and [width: `${downloadProgress}%`]. *)
Definition displayedProgress (a : AppState) : Number := downloadProgress a.

(** ** Delivering events to effect closures *)

Section Delivery.

(** How one run of the effect reacts to an event. *)
Variable step : LoadEvent -> Closure * World -> Closure * World.

(** Events delivered one after the other to the same closure. *)
Definition run (evs : list LoadEvent) (cw : Closure * World)
  : Closure * World :=
  fold_left (fun cw ev => step ev cw) evs cw.

(** Two runs of the effect share the component: the one a re-run has
    replaced, whose promises may still settle, and the current one. *)
Inductive Owner := Superseded | Current.

Definition isCurrent (o : Owner) : bool :=
  match o with Current => true | Superseded => false end.

Fixpoint runShared (evs : list (Owner * LoadEvent))
    (old : Closure) (cw : Closure * World) : Closure * (Closure * World) :=
  match evs with
  | [] => (old, cw)
  | (Superseded, ev) :: evs' =>
      let (old', w') := step ev (old, snd cw) in
      runShared evs' old' (fst cw, w')
  | (Current, ev) :: evs' => runShared evs' old (step ev cw)
  end.

(** The events of the current run among interleaved ones. *)
Definition currentOnly (evs : list (Owner * LoadEvent)) : list LoadEvent :=
  map snd (filter (fun oe => isCurrent (fst oe)) evs).

End Delivery.

(** ** The loader of [src/App.jsx] *)

Module AppV1.

Section Loader.

(** The ordered fallback list; the source's own is [fallbackModels_src]. *)
Variable fallbackModels : list JsString.

(** [loadModel(nameIdx)] up to its [await]: the new world, and the index
    whose promise is awaited ([None] when the function has returned). *)
Definition loadModel (nameIdx : nat) (w : World) : World * option nat :=
  if (List.length fallbackModels <=? nameIdx)%nat then (w, None)
  else
    let selectedModel := nth nameIdx fallbackModels [] in
    let w := onApp (setModelName selectedModel) w in
    let w := onApp (triedModelsRef_push selectedModel) w in
    let w := onApp (setIsDownloading true) w in
    let w := onApp (setDownloadProgress 0%float) w in
    let w := onApp (setError None) w in
    (CreateMLCEngine selectedModel w, Some nameIdx).

Definition initProgressCallback (c : Closure) (progressObj : ProgressObj)
    (a : AppState) : AppState :=
  if cancelled c then a
  else
    let percent := percentOf progressObj in
    let a := setDownloadProgress percent a in
    setIsDownloading (PrimFloat.ltb percent 100%float) a.

(** After the [await], when the promise is fulfilled with [created]. *)
Definition loadModel_fulfilled (c : Closure) (created : Engine)
    (a : AppState) : AppState :=
  if cancelled c then a
  else
    let a := setEngine (Some created) a in
    let a := setIsDownloading false a in
    setDownloadProgress 100%float a.

(** The [catch] block, up to the [await] of the nested [loadModel]; when
    that one settles the outer call has nothing left to do. *)
Definition loadModel_rejected (c : Closure) (nameIdx : nat) (err : Thrown)
    (w : World) : World * option nat :=
  if cancelled c then (w, None)
  else
    let message := messageOrSelf err in
    let w := onApp (setError (Some message)) w in
    if resourceExhaustion message then loadModel (nameIdx + 1) w
    else (onApp (setIsDownloading false) w, None).

Definition step (ev : LoadEvent) (cw : Closure * World) : Closure * World :=
  let (c, w) := cw in
  match ev with
  | Progress progressObj => (c, onApp (initProgressCallback c progressObj) w)
  | Resolved created =>
      match awaiting c with
      | None => (c, w)
      | Some _ =>
          (mkClosure (cancelled c) None,
           onApp (loadModel_fulfilled c created) w)
      end
  | Rejected err =>
      match awaiting c with
      | None => (c, w)
      | Some nameIdx =>
          let (w', next) := loadModel_rejected c nameIdx err w in
          (mkClosure (cancelled c) next, w')
      end
  | Cleanup => (mkClosure true (awaiting c), w)
  end.

(** The effect body: [let cancelled = false; ...; loadModel();] with the
    default [nameIdx = 0]. *)
Definition useEffect (w : World) : Closure * World :=
  let (w', next) := loadModel 0 w in
  (mkClosure false next, w').

End Loader.

(** The list written in [src/App.jsx]. *)
Definition fallbackModels_src : list JsString :=
  [ js "Llama-3.2-1B-Instruct-q4f16_1-MLC";
    js "Llama-3.1-8B-Instruct-q4f32_1-MLC";
    js "Llama-3.1-8B-Instruct-q4f16_1-MLC";
    js "Llama-3.2-3B-Instruct-q4f16_1-MLC" ].

(** The state of the first render, [uid0] being the id drawn for the
    greeting. *)
Definition initialState (uid0 : JsString) : AppState :=
  mkAppState
    [mkMessage uid0 system (js "Hi! How can I help you today?") None]
    [] false None false 0%float []
    (js "Llama-3.1-8B-Instruct-q4f32_1-MLC") 0 None [].

End AppV1.

(** ** The loader of the second version (in [src/components/Message.jsx]) *)

Module AppV2.

(** [l.indexOf(x)]: the first position of [x], or [-1]. *)
Fixpoint indexOf (x : JsString) (l : list JsString) : Z :=
  match l with
  | [] => (-1)%Z
  | y :: l' =>
      if strictEq y x then 0%Z
      else
        let r := indexOf x l' in
        if (r =? -1)%Z then (-1)%Z else (r + 1)%Z
  end.

Section Loader.

Variable fallbackModels : list JsString.

Definition startIndex (a : AppState) : nat :=
  Z.to_nat
    (if negb (indexOf (modelName a) fallbackModels =? -1)%Z
     then indexOf (modelName a) fallbackModels
     else 0%Z).

Definition loadModel (c : Closure) (nameIdx : nat) (w : World)
  : World * option nat :=
  if cancelled c then (w, None)
  else if (List.length fallbackModels <=? nameIdx)%nat then (w, None)
  else
    let selectedModel := nth nameIdx fallbackModels [] in
    let w := onApp (setIsDownloading true) w in
    let w := onApp (setDownloadProgress 0%float) w in
    let w := onApp (setError None) w in
    let w := onApp (triedModelsRef_push selectedModel) w in
    (CreateMLCEngine selectedModel w, Some nameIdx).

Definition initProgressCallback (c : Closure) (progressObj : ProgressObj)
    (a : AppState) : AppState :=
  if cancelled c then a
  else
    let percent := percentOf progressObj in
    let a := setDownloadProgress percent a in
    let a := setIsDownloading (PrimFloat.ltb percent 100%float) a in
    match text progressObj with
    | Some t => if truthy t then setProgressMessage t a else a
    | None => a
    end.

Definition loadModel_fulfilled (c : Closure) (created : Engine)
    (a : AppState) : AppState :=
  if cancelled c then a
  else
    let a := setEngine (Some created) a in
    let a := setIsDownloading false a in
    setDownloadProgress 100%float a.

Definition loadModel_rejected (c : Closure) (nameIdx : nat) (err : Thrown)
    (w : World) : World * option nat :=
  if cancelled c then (w, None)
  else
    let message := messageOrSelf err in
    let w := onApp (setError (Some message)) w in
    if resourceExhaustion message then loadModel c (nameIdx + 1) w
    else (onApp (setIsDownloading false) w, None).

Definition step (ev : LoadEvent) (cw : Closure * World) : Closure * World :=
  let (c, w) := cw in
  match ev with
  | Progress progressObj => (c, onApp (initProgressCallback c progressObj) w)
  | Resolved created =>
      match awaiting c with
      | None => (c, w)
      | Some _ =>
          (mkClosure (cancelled c) None,
           onApp (loadModel_fulfilled c created) w)
      end
  | Rejected err =>
      match awaiting c with
      | None => (c, w)
      | Some nameIdx =>
          let (w', next) := loadModel_rejected c nameIdx err w in
          (mkClosure (cancelled c) next, w')
      end
  | Cleanup => (mkClosure true (awaiting c), w)
  end.

(** The effect body: [if (!engine) loadModel();] with the default
    [nameIdx = startIndex]. *)
Definition useEffect (w : World) : Closure * World :=
  let c := mkClosure false None in
  match engine (app w) with
  | None =>
      let (w', next) := loadModel c (startIndex (app w)) w in
      (mkClosure false next, w')
  | Some _ => (c, w)
  end.

(** [handleModelChange(e)]: [newModel] is [e.target.value] and [uid1] the
    id drawn for the notice that replaces the transcript. *)
Definition handleModelChange (uid1 newModel : JsString) (a : AppState)
  : AppState :=
  if strictEq newModel (modelName a)
     && match engine a with Some _ => true | None => false end
  then a
  else
    let a := setModelName newModel a in
    let a := setEngine None a in
    let a :=
      setMessages
        (fun _ =>
           [mkMessage uid1 system
              (js "Switched to " ++ newModel ++ js ". Initializing...")
              None]) a in
    setReloadToken (fun t => t + 1) a.

(** What React does when [modelName], [reloadToken] or [engine] has
    changed: the cleanup of the previous run of the effect, which sets that
    run's [cancelled], then the effect again, with variables of its own. *)
Definition rerunEffect (old : Closure) (w : World)
  : Closure * (Closure * World) :=
  (mkClosure true (awaiting old), useEffect w).

End Loader.

(** [FALLBACK_MODELS] *)
Definition FALLBACK_MODELS : list JsString :=
  [ js "Llama-3.1-8B-Instruct-q4f32_1-MLC";
    js "Llama-3.1-8B-Instruct-q4f16_1-MLC";
    js "Llama-3.2-3B-Instruct-q4f16_1-MLC";
    js "Llama-3.2-1B-Instruct-q4f16_1-MLC" ].

Definition initialState (uid0 : JsString) : AppState :=
  mkAppState
    [mkMessage uid0 system (js "Hi! How can I help you today?") None]
    [] false None false 0%float []
    (js "Llama-3.2-1B-Instruct-q4f16_1-MLC") 0 None [].

End AppV2.

(** ** The chat session controller

    [generateReply], [handleSubmit] read the same in both versions. *)

Module Chat.

(** How [engine.chat.completions.create] settles: with a result whose
    [choices[0].message.content] is [content] (absent when [null]), or by
    throwing; reading a missing [choices[0]] throws inside the same [try].
    Of the value thrown the [catch] block needs one thing more than
    [Js.Thrown] tells: whether a template literal can convert the value
    itself to a string.  [String()] converts a Symbol; a template literal
    throws a TypeError on it, so [interpolates] is [false] for a Symbol
    and [true] for what errors usually are. *)
Inductive Generation :=
| Completed (content : option JsString)
| Failed (err : Thrown) (interpolates : bool).

(** The text that [${err?.message || err}] contributes to a template
    literal, [None] when the interpolation throws: a truthy [message] is a
    string and goes in as it is; otherwise the value itself is
    converted. *)
Definition interpolated (err : Thrown) (interpolates : bool)
  : option JsString :=
  let self := if interpolates then Some (toString err) else None in
  match message err with
  | Some m => if truthy m then Some m else self
  | None => self
  end.

(** [generateReply(text)] up to its [await]. *)
Inductive ReplyPromise :=
| Immediately (reply : JsString)
| AwaitEngine (eng : Engine) (prompt : JsString).

Definition generateReply (text : JsString) (a : AppState) : ReplyPromise :=
  match engine a with
  | None => Immediately (js "Engine not initialized")
  | Some eng => AwaitEngine eng text
  end.

(** The rest of [generateReply]: the value it returns and the state, or
    [None] when building [msg] throws inside the [catch] block, before
    [setError]: the promise of [generateReply] is then rejected. *)
Definition generateReply_settled (g : Generation) (a : AppState)
  : option (JsString * AppState) :=
  match g with
  | Completed content =>
      Some (match content with
            | Some t => if truthy t then t else js "No response"
            | None => js "No response"
            end, a)
  | Failed err interpolates =>
      match interpolated err interpolates with
      | Some text =>
          let msg := (js "Generation error: " ++ text)%list in
          Some (msg, setError (Some msg) a)
      | None => None
      end
  end.

(** Where [handleSubmit] stands when it gives control back. *)
Inductive Suspension :=
| Returned
| AwaitReply (eng : Engine) (prompt placeholderId : JsString).

(** [m.map((msg) => msg.id === placeholderId
                    ? { ...msg, content: reply, pending: false } : msg)] *)
Definition resolvePlaceholder (placeholderId reply : JsString)
    (m : list Message) : list Message :=
  map (fun msg =>
         if strictEq (id msg) placeholderId
         then mkMessage (id msg) (role msg) reply (Some false)
         else msg) m.

(** [handleSubmit] after [await generateReply(value)]. *)
Definition handleSubmit_resume (placeholderId reply : JsString)
    (a : AppState) : AppState :=
  let a := setMessages (resolvePlaceholder placeholderId reply) a in
  setLoading false a.

(** [handleSubmit(e)]; [userId] and [placeholderId] are what the two calls
    of [uid()] return.  With no engine the awaited promise is already
    fulfilled and the function resumes within the same task; what it still
    does then, a functional update of [messages] and [setLoading(false)],
    is applied here at once. *)
Definition handleSubmit (userId placeholderId : JsString) (a : AppState)
  : AppState * Suspension :=
  let value := trim (input a) in
  if negb (truthy value) || loading a then (a, Returned)
  else
    let userMsg := mkMessage userId user value None in
    let placeholder :=
      mkMessage placeholderId system (js "Thinking...") (Some true) in
    let a' := setMessages (fun m => m ++ [userMsg; placeholder])%list a in
    let a' := setInput [] a' in
    let a' := setLoading true a' in
    match generateReply value a with
    | Immediately reply => (handleSubmit_resume placeholderId reply a', Returned)
    | AwaitEngine eng prompt => (a', AwaitReply eng prompt placeholderId)
    end.

(** [handleSubmit] when the engine has settled: it resumes with the reply
    of [generateReply]; when [generateReply] is rejected the [await]
    throws, nothing catches it, and the handler ends there, with the
    state as it is. *)
Definition handleSubmit_settled (placeholderId : JsString) (g : Generation)
    (a : AppState) : AppState :=
  match generateReply_settled g a with
  | Some (reply, a') => handleSubmit_resume placeholderId reply a'
  | None => a
  end.

(** Does [generateReply] return a reply on this settlement? *)
Definition yieldsReply (g : Generation) : bool :=
  match g with
  | Completed _ => true
  | Failed err interpolates =>
      match interpolated err interpolates with
      | Some _ => true
      | None => false
      end
  end.

End Chat.

(** ** Both versions behind one name *)

Inductive Version := App_jsx | Message_jsx.

Definition stepOf (v : Version) (fallbackModels : list JsString)
  : LoadEvent -> Closure * World -> Closure * World :=
  match v with
  | App_jsx => AppV1.step fallbackModels
  | Message_jsx => AppV2.step fallbackModels
  end.

Definition useEffectOf (v : Version) (fallbackModels : list JsString)
  : World -> Closure * World :=
  match v with
  | App_jsx => AppV1.useEffect fallbackModels
  | Message_jsx => AppV2.useEffect fallbackModels
  end.

Definition loadModelOf (v : Version) (fallbackModels : list JsString)
    (c : Closure) : nat -> World -> World * option nat :=
  match v with
  | App_jsx => AppV1.loadModel fallbackModels
  | Message_jsx => AppV2.loadModel fallbackModels c
  end.

Definition initProgressCallbackOf (v : Version)
  : Closure -> ProgressObj -> AppState -> AppState :=
  match v with
  | App_jsx => AppV1.initProgressCallback
  | Message_jsx => AppV2.initProgressCallback
  end.

(** The index the effect starts from. *)
Definition firstIndex (v : Version) (fallbackModels : list JsString)
    (a : AppState) : nat :=
  match v with
  | App_jsx => 0
  | Message_jsx => AppV2.startIndex fallbackModels a
  end.

(** One attempt as the factory plays it: some progress reports, then the
    promise is rejected with [snd att]. *)
Definition failingAttempt (att : list ProgressObj * Thrown) : list LoadEvent :=
  (map Progress (fst att) ++ [Rejected (snd att)])%list.

Definition exhausts (att : list ProgressObj * Thrown) : Prop :=
  resourceExhaustion (messageOrSelf (snd att)) = true.

Import Chat.

(** What a progress report may not touch. *)
Definition progressFrame (a a' : AppState) : Prop :=
  messages a' = messages a /\ input a' = input a /\ loading a' = loading a
  /\ engine a' = engine a /\ modelName a' = modelName a
  /\ reloadToken a' = reloadToken a /\ error a' = error a
  /\ triedModelsRef a' = triedModelsRef a.

(** The value [error] takes after each attempt of a failing chain. *)
Definition errorsOf (attempts : list (list ProgressObj * Thrown))
  : list (option JsString) :=
  map (fun att => Some (messageOrSelf (snd att))) attempts.

(** ** Sample inputs *)

Definition deviceLost : Thrown :=
  mkThrown (Some (js "Device was lost")) (js "Error: Device was lost").

Definition outOfMemory : Thrown :=
  mkThrown (Some (js "Insufficient memory for buffer"))
           (js "Error: Insufficient memory for buffer").

Definition invalidFormat : Thrown :=
  mkThrown (Some (js "invalid model format"))
           (js "Error: invalid model format").

(** The binary64 number that the literal [0.285] denotes. *)
Definition number_0_285 : Number := 0x1.23d70a3d70a3dp-2%float.

Definition report (fraction : Number) : ProgressObj :=
  mkProgressObj (Some fraction) (Some (js "Fetching param cache")).

(** First render of either version, before the effect has run. *)
Definition mounted (v : Version) : World :=
  match v with
  | App_jsx => mkWorld (AppV1.initialState (js "k3x9q0ab")) []
  | Message_jsx => mkWorld (AppV2.initialState (js "k3x9q0ab")) []
  end.

(** The chat screen of the second version with [typed] in the input box. *)
Definition chatting (typed : JsString) (eng : option Engine) : AppState :=
  mkAppState
    [mkMessage (js "k3x9q0ab") system (js "Hi! How can I help you today?")
       None]
    typed false eng false 100%float []
    (js "Llama-3.2-1B-Instruct-q4f16_1-MLC") 0 None
    [js "Llama-3.2-1B-Instruct-q4f16_1-MLC"].

(** ** The rest of the component: [clearChat] and what is rendered *)

Module Component.

(** [clearChat()], the same in both versions; [uid1] is the id drawn for
    the notice. *)
Definition clearChat (uid1 : JsString) (a : AppState) : AppState :=
  if loading a then a
  else
    setMessages
      (fun _ =>
         [mkMessage uid1 system (js "Chat cleared. Ask something else!")
            None]) a.

(** [!engine] is [negb (hasEngine a)]. *)
Definition hasEngine (a : AppState) : bool :=
  match engine a with Some _ => true | None => false end.

(** [error] read as a condition: [null] and the empty string are falsy. *)
Definition errorTruthy (a : AppState) : bool :=
  match error a with Some e => truthy e | None => false end.

(** Does the component return the loading screen instead of the chat?
    [src/App.jsx]: [(isDownloading && !engine) || (!engine && error)];
    second version: [!engine]. *)
Definition showsLoadingScreen (v : Version) (a : AppState) : bool :=
  match v with
  | App_jsx =>
      (isDownloading a && negb (hasEngine a))
      || (negb (hasEngine a) && errorTruthy a)
  | Message_jsx => negb (hasEngine a)
  end.

(** The [disabled] attribute of the submit button. *)
Definition submitDisabled (v : Version) (a : AppState) : bool :=
  match v with
  | App_jsx => negb (truthy (trim (input a))) || loading a
  | Message_jsx =>
      negb (truthy (trim (input a))) || loading a || negb (hasEngine a)
  end.

End Component.

(** ** The component as a whole, one event at a time *)

Module Session.

(** What can happen to a mounted component.  [Loader c ev] delivers [ev]
    to some run [c] of the loading effect, current or superseded, live or
    cancelled; [EffectRun] is React running the effect.  A settlement
    names the placeholder of the generation it belongs to. *)
Inductive Event :=
| Typed (value : JsString)
| Submitted (userId placeholderId : JsString)
| Settled (placeholderId : JsString) (g : Chat.Generation)
| ClearClicked (uid1 : JsString)
| ModelChosen (uid1 newModel : JsString)
| EffectRun
| Loader (c : Closure) (ev : LoadEvent).

(** The component and the placeholders of the generations that
    [handleSubmit] is suspended on. *)
Record State := mkState {
  world : World;
  inFlight : list JsString
}.

Fixpoint awaited (pid : JsString) (l : list JsString) : bool :=
  match l with
  | [] => false
  | x :: l' => strictEq x pid || awaited pid l'
  end.

Fixpoint removeOne (pid : JsString) (l : list JsString) : list JsString :=
  match l with
  | [] => []
  | x :: l' => if strictEq x pid then l' else x :: removeOne pid l'
  end.

Section Steps.

Variable v : Version.
Variable fallbackModels : list JsString.

(** [src/App.jsx] renders no model selector, so [ModelChosen] cannot reach
    it; a settlement nobody waits for is dropped. *)
Definition step (e : Event) (s : State) : State :=
  match e with
  | Typed value => mkState (onApp (setInput value) (world s)) (inFlight s)
  | Submitted userId placeholderId =>
      let (a', suspension) :=
        Chat.handleSubmit userId placeholderId (app (world s)) in
      mkState (onApp (fun _ => a') (world s))
        match suspension with
        | Chat.Returned => inFlight s
        | Chat.AwaitReply _ _ pid => pid :: inFlight s
        end
  | Settled pid g =>
      if awaited pid (inFlight s)
      then mkState (onApp (Chat.handleSubmit_settled pid g) (world s))
                   (removeOne pid (inFlight s))
      else s
  | ClearClicked uid1 =>
      mkState (onApp (Component.clearChat uid1) (world s)) (inFlight s)
  | ModelChosen uid1 newModel =>
      match v with
      | App_jsx => s
      | Message_jsx =>
          mkState (onApp (AppV2.handleModelChange uid1 newModel) (world s))
                  (inFlight s)
      end
  | EffectRun =>
      mkState (snd (useEffectOf v fallbackModels (world s))) (inFlight s)
  | Loader c ev =>
      mkState (snd (stepOf v fallbackModels ev (c, world s))) (inFlight s)
  end.

Definition runAll (evs : list Event) (s : State) : State :=
  fold_left (fun s e => step e s) evs s.

End Steps.

(** An event after which [handleSubmit] is still alive or has run to its
    end: every event but a settlement on which [generateReply] is
    rejected. *)
Definition handled (e : Event) : bool :=
  match e with
  | Settled _ g => Chat.yieldsReply g
  | _ => true
  end.

(** Is the entry shown with the pulsing dot ([pending && ...])? *)
Definition isPending (m : Message) : bool :=
  match pending m with Some true => true | _ => false end.

(** The state right after the first render. *)
Definition firstRender (v : Version) : State := mkState (mounted v) [].

End Session.

(** ASCII letters folded as the [i] flag does, on a whole string. *)
Definition foldCase (s : JsString) : JsString := map canonicalize s.

(** [s] contains a text that reads as [phrase] up to ASCII case. *)
Definition containsIgnoringCase (phrase s : JsString) : Prop :=
  exists before found after,
    s = (before ++ found ++ after)%list
    /\ foldCase found = foldCase phrase.

(** What the loader keeps of the list once it awaits index [i]: the
    candidates after it. *)
Definition remaining (fallbackModels : list JsString) (c : Closure)
  : list JsString :=
  match awaiting c with
  | Some i => skipn (S i) fallbackModels
  | None => []
  end.

(** The invariant of a session: the transcript is never empty; at most one
    generation is in flight, and then [loading] is [true] and only its
    placeholder can be pending; and while [loading] is [false] nothing is
    in flight and no entry is pending. *)
Definition sessionInvariant (s : Session.State) : Prop :=
  messages (app (Session.world s)) <> []
  /\ (forall pid rest, Session.inFlight s = pid :: rest ->
      rest = []
      /\ loading (app (Session.world s)) = true
      /\ forall m, In m (messages (app (Session.world s))) ->
                   Session.isPending m = true -> id m = pid)
  /\ (loading (app (Session.world s)) = false ->
      Session.inFlight s = []
      /\ forall m, In m (messages (app (Session.world s))) ->
                   Session.isPending m = false).

(** What holds besides until a settlement is lost: [loading] is [true]
    only while a generation is in flight. *)
Definition loadingOnlyInFlight (s : Session.State) : Prop :=
  Session.inFlight s = [] -> loading (app (Session.world s)) = false.

(** ** Checks on concrete inputs *)

Example trim_hi : trim (js "  hi ") = js "hi".
Proof. reflexivity. Qed.

Example trim_blank :
  trim (js "   ") = [] /\ trim [9; 160; 8232; 65279]%N = [] /\ trim [] = [].
Proof. repeat split. Qed.

Example resourceExhaustion_samples :
  resourceExhaustion (js "Device was lost") = true
  /\ resourceExhaustion (js "GPU DEVICE LOST while compiling") = true
  /\ resourceExhaustion (js "Insufficient Memory") = true
  /\ resourceExhaustion (js "invalid model format") = false
  /\ resourceExhaustion (js "Failed to fetch") = false
  /\ resourceExhaustion (js "devicelost") = false.
Proof. vm_compute; repeat split. Qed.

(** Ties go up, also below zero; a product that binary64 rounds below the
    half is rounded down. *)
Example Math_round_samples :
  Math_round 2.5%float = 3%float
  /\ Math_round (-2.5)%float = (-2)%float
  /\ Math_round (PrimFloat.mul 0.5%float 100%float) = 50%float
  /\ Math_round (PrimFloat.mul number_0_285 100%float) = 28%float
  /\ Math_round (PrimFloat.mul 1%float 100%float) = 100%float
  /\ Math_round 0x1.fffffffffffffp-2%float = 0%float.
Proof. vm_compute; repeat split. Qed.

Example messageOrSelf_samples :
  messageOrSelf deviceLost = js "Device was lost"
  /\ messageOrSelf (mkThrown (Some []) (js "Error")) = js "Error"
  /\ messageOrSelf (mkThrown None (js "timeout")) = js "timeout".
Proof. repeat split. Qed.

(** The scenario of three candidates: the first two are rejected with
    "Device was lost", the third is fulfilled. *)
Example scenario_third_candidate_loads :
  let fm := [js "A"; js "B"; js "C"] in
  let cw := run (AppV1.step fm)
              [Rejected deviceLost; Rejected deviceLost;
               Progress (report 1%float); Resolved (EngineHandle 3)]
              (AppV1.useEffect fm (mounted App_jsx)) in
  triedModelsRef (app (snd cw)) = fm
  /\ createCalls (snd cw) = fm
  /\ engine (app (snd cw)) = Some (EngineHandle 3)
  /\ error (app (snd cw)) = None
  /\ modelName (app (snd cw)) = js "C".
Proof. vm_compute; repeat split. Qed.

(** The scenario of two candidates, the first rejected with "invalid model
    format". *)
Example scenario_invalid_format_is_terminal :
  let fm := [js "A"; js "B"] in
  let cw := run (AppV1.step fm) [Rejected invalidFormat]
              (AppV1.useEffect fm (mounted App_jsx)) in
  triedModelsRef (app (snd cw)) = [js "A"]
  /\ createCalls (snd cw) = [js "A"]
  /\ engine (app (snd cw)) = None
  /\ error (app (snd cw)) = Some (js "invalid model format")
  /\ awaiting (fst cw) = None.
Proof. vm_compute; repeat split. Qed.

Example startIndex_samples :
  AppV2.startIndex AppV2.FALLBACK_MODELS (app (mounted Message_jsx)) = 3
  /\ AppV2.startIndex AppV2.FALLBACK_MODELS
       (setModelName (js "not-a-listed-model") (app (mounted Message_jsx)))
     = 0
  /\ AppV2.indexOf (js "x") [] = (-1)%Z.
Proof. vm_compute; repeat split. Qed.

(** ** Strings *)

Lemma strictEq_refl (a : JsString) : strictEq a a = true.
Proof.
  induction a as [|x a IH]; cbn; [reflexivity|].
  now rewrite N.eqb_refl, IH.
Qed.

Lemma strictEq_eq (a b : JsString) : strictEq a b = true <-> a = b.
Proof.
  split; [|intros ->; apply strictEq_refl].
  revert b; induction a as [|x a IH]; intros [|y b]; cbn; try discriminate;
    [reflexivity|].
  intros H; apply andb_true_iff in H as [Hx Hab].
  apply N.eqb_eq in Hx; subst y; f_equal; auto.
Qed.

Lemma strictEq_neq (a b : JsString) : a <> b -> strictEq a b = false.
Proof.
  intros Hne; destruct (strictEq a b) eqn:E; [|reflexivity].
  apply strictEq_eq in E; contradiction.
Qed.

Lemma trimStart_whitespaceOnly (s : JsString) :
  whitespaceOnly s = true -> trimStart s = [].
Proof.
  induction s as [|c s IH]; cbn; [reflexivity|].
  intros H; apply andb_true_iff in H as [Hc Hs].
  now rewrite Hc; apply IH.
Qed.

Lemma trimStart_nil_whitespaceOnly (s : JsString) :
  trimStart s = [] -> whitespaceOnly s = true.
Proof.
  induction s as [|c s IH]; cbn; [reflexivity|].
  destruct (isWhiteSpace c); [exact IH | discriminate].
Qed.

Lemma whitespaceOnly_trimStart (s : JsString) :
  whitespaceOnly (trimStart s) = true -> whitespaceOnly s = true.
Proof.
  induction s as [|c s IH]; cbn; [reflexivity|].
  destruct (isWhiteSpace c) eqn:E; [exact IH|].
  cbn; now rewrite E.
Qed.

Lemma whitespaceOnly_rev (s : JsString) :
  whitespaceOnly (rev s) = whitespaceOnly s.
Proof.
  unfold whitespaceOnly.
  induction s as [|c s IH]; cbn; [reflexivity|].
  rewrite forallb_app, IH; cbn.
  now rewrite andb_true_r, andb_comm.
Qed.

(** [trim] leaves nothing exactly when the text is white space only. *)
Lemma trim_nil_iff (s : JsString) :
  trim s = [] <-> whitespaceOnly s = true.
Proof.
  unfold trim, trimEnd; split.
  - intros H.
    apply (f_equal (@rev N)) in H; rewrite rev_involutive in H; cbn in H.
    apply trimStart_nil_whitespaceOnly in H.
    rewrite whitespaceOnly_rev in H.
    now apply whitespaceOnly_trimStart.
  - intros H.
    rewrite (trimStart_whitespaceOnly s H); reflexivity.
Qed.

Lemma truthy_trim (s : JsString) :
  truthy (trim s) = negb (whitespaceOnly s).
Proof.
  destruct (whitespaceOnly s) eqn:E.
  - apply trim_nil_iff in E; now rewrite E.
  - destruct (trim s) eqn:T; [|reflexivity].
    apply trim_nil_iff in T; congruence.
Qed.

(** ** Lists *)

Lemma skipn_nth_cons {A} (l : list A) (n : nat) (d : A) :
  n < List.length l -> skipn n l = nth n l d :: skipn (S n) l.
Proof.
  revert n; induction l as [|x l IH]; intros n Hn; cbn in Hn; [lia|].
  destruct n as [|n]; [reflexivity|].
  cbn [skipn nth]; apply IH; lia.
Qed.

Lemma last_cons_default {A} (l : list A) (x d : A) :
  last (x :: l) d = last l x.
Proof.
  revert x d; induction l as [|y l IH]; intros x d; [reflexivity|].
  change (last (x :: y :: l) d) with (last (y :: l) d).
  rewrite IH; symmetry; apply IH.
Qed.

Lemma run_app step (s t : list LoadEvent) (cw : Closure * World) :
  run step (s ++ t) cw = run step t (run step s cw).
Proof. apply fold_left_app. Qed.

Lemma run_cons step (ev : LoadEvent) (t : list LoadEvent) cw :
  run step (ev :: t) cw = run step t (step ev cw).
Proof. reflexivity. Qed.

(** ** Progress reports *)

Lemma progressFrame_refl a : progressFrame a a.
Proof. repeat split. Qed.

Lemma progressFrame_trans a b c :
  progressFrame a b -> progressFrame b c -> progressFrame a c.
Proof.
  unfold progressFrame; intros H1 H2.
  repeat match goal with H : _ /\ _ |- _ => destruct H end.
  repeat split; congruence.
Qed.

Lemma initProgressCallback_frame v c p a :
  progressFrame a (initProgressCallbackOf v c p a).
Proof.
  destruct v; cbn; unfold AppV1.initProgressCallback,
    AppV2.initProgressCallback; destruct (cancelled c);
    try apply progressFrame_refl.
  - repeat split.
  - destruct (text p) as [t|]; [destruct (truthy t)|]; repeat split.
Qed.

Lemma initProgressCallback_live v c p a :
  cancelled c = false ->
  downloadProgress (initProgressCallbackOf v c p a) = percentOf p
  /\ isDownloading (initProgressCallbackOf v c p a)
     = PrimFloat.ltb (percentOf p) 100%float.
Proof.
  intros Hc; destruct v; cbn; unfold AppV1.initProgressCallback,
    AppV2.initProgressCallback; rewrite Hc.
  - split; reflexivity.
  - destruct (text p) as [t|]; [destruct (truthy t)|]; split; reflexivity.
Qed.

Lemma step_progress v fm p c w :
  stepOf v fm (Progress p) (c, w)
  = (c, onApp (initProgressCallbackOf v c p) w).
Proof. destruct v; reflexivity. Qed.

(** Progress reports leave the closure, the factory calls and the frame
    alone; on a live closure the last report decides what is recorded. *)
Lemma run_progress v fm ps c w :
  let cw := run (stepOf v fm) (map Progress ps) (c, w) in
  fst cw = c
  /\ createCalls (snd cw) = createCalls w
  /\ progressFrame (app w) (app (snd cw))
  /\ (cancelled c = false ->
      downloadProgress (app (snd cw))
      = last (map percentOf ps) (downloadProgress (app w))
      /\ isDownloading (app (snd cw))
         = last (map (fun p => PrimFloat.ltb (percentOf p) 100%float) ps)
             (isDownloading (app w))).
Proof.
  revert w; induction ps as [|p ps IH]; intros w.
  - cbn; repeat split; auto.
  - cbn [map]; rewrite run_cons, step_progress.
    specialize (IH (onApp (initProgressCallbackOf v c p) w)).
    cbv zeta in IH |- *.
    destruct IH as (Hc & Hcalls & Hframe & Hlive).
    split; [exact Hc|]. split; [exact Hcalls|]. split.
    + eapply progressFrame_trans; [|exact Hframe].
      apply initProgressCallback_frame.
    + intros H; rewrite !last_cons_default.
      destruct (Hlive H) as [-> ->].
      cbn [app onApp].
      destruct (initProgressCallback_live v c p (app w) H) as [-> ->].
      split; reflexivity.
Qed.

(** ** Starting an attempt, and a closure that awaits nothing *)

Lemma loadModelOf_exhausted v fm c i w :
  List.length fm <= i -> loadModelOf v fm c i w = (w, None).
Proof.
  intros Hi; apply Nat.leb_le in Hi.
  destruct v; cbn; unfold AppV1.loadModel, AppV2.loadModel; rewrite Hi;
    [|destruct (cancelled c)]; reflexivity.
Qed.

Lemma loadModelOf_started v fm c i w :
  cancelled c = false -> i < List.length fm ->
  let r := loadModelOf v fm c i w in
  snd r = Some i
  /\ createCalls (fst r) = (createCalls w ++ [nth i fm []])%list
  /\ triedModelsRef (app (fst r))
     = (triedModelsRef (app w) ++ [nth i fm []])%list
  /\ error (app (fst r)) = None
  /\ isDownloading (app (fst r)) = true
  /\ downloadProgress (app (fst r)) = 0%float
  /\ engine (app (fst r)) = engine (app w)
  /\ messages (app (fst r)) = messages (app w).
Proof.
  intros Hc Hi; apply Nat.leb_gt in Hi.
  destruct v; cbn; unfold AppV1.loadModel, AppV2.loadModel;
    rewrite ?Hc, Hi; cbn; repeat split.
Qed.

Lemma step_rejected_live v fm c w i err :
  cancelled c = false -> awaiting c = Some i ->
  stepOf v fm (Rejected err) (c, w)
  = let w1 := onApp (setError (Some (messageOrSelf err))) w in
    if resourceExhaustion (messageOrSelf err)
    then (mkClosure false (snd (loadModelOf v fm c (i + 1) w1)),
          fst (loadModelOf v fm c (i + 1) w1))
    else (mkClosure false None, onApp (setIsDownloading false) w1).
Proof.
  intros Hc Ha.
  destruct v; cbn; rewrite Ha;
    unfold AppV1.loadModel_rejected, AppV2.loadModel_rejected; rewrite Hc;
    destruct (resourceExhaustion (messageOrSelf err)); try reflexivity.
  - now destruct (AppV1.loadModel fm (i + 1) _).
  - now destruct (AppV2.loadModel fm c (i + 1) _).
Qed.

Lemma step_resolved_live v fm c w i created :
  cancelled c = false -> awaiting c = Some i ->
  stepOf v fm (Resolved created) (c, w)
  = (mkClosure false None,
     onApp (fun a => setDownloadProgress 100%float
                       (setIsDownloading false
                          (setEngine (Some created) a))) w).
Proof.
  intros Hc Ha.
  destruct v; cbn; rewrite Ha;
    unfold AppV1.loadModel_fulfilled, AppV2.loadModel_fulfilled;
    rewrite Hc; reflexivity.
Qed.

(** Once a closure awaits nothing, no event makes it call the factory
    again, and what it still does stays within the progress frame. *)
Lemma run_idle v fm evs : forall c w,
  awaiting c = None ->
  let cw := run (stepOf v fm) evs (c, w) in
  awaiting (fst cw) = None
  /\ createCalls (snd cw) = createCalls w
  /\ progressFrame (app w) (app (snd cw)).
Proof.
  induction evs as [|ev evs IH]; intros c w Ha.
  - cbn; split; [exact Ha|]; split; [reflexivity|apply progressFrame_refl].
  - rewrite run_cons.
    destruct ev as [p|created|err|].
    + rewrite step_progress.
      destruct (IH c (onApp (initProgressCallbackOf v c p) w) Ha)
        as (H1 & H2 & H3).
      cbv zeta; split; [exact H1|]; split; [exact H2|].
      eapply progressFrame_trans; [|exact H3].
      apply initProgressCallback_frame.
    + replace (stepOf v fm (Resolved created) (c, w)) with (c, w)
        by (destruct v; cbn; now rewrite Ha).
      now apply IH.
    + replace (stepOf v fm (Rejected err) (c, w)) with (c, w)
        by (destruct v; cbn; now rewrite Ha).
      now apply IH.
    + replace (stepOf v fm Cleanup (c, w))
        with (mkClosure true (awaiting c), w) by (destruct v; reflexivity).
      now apply IH.
Qed.

(** ** A chain of attempts that all fail for lack of resources *)

Lemma run_failing v fm attempts : forall i c w,
  cancelled c = false -> awaiting c = Some i -> i < List.length fm ->
  List.length attempts = List.length fm - i ->
  Forall exhausts attempts ->
  let cw := run (stepOf v fm) (flat_map failingAttempt attempts) (c, w) in
  awaiting (fst cw) = None
  /\ createCalls (snd cw) = (createCalls w ++ skipn (S i) fm)%list
  /\ triedModelsRef (app (snd cw))
     = (triedModelsRef (app w) ++ skipn (S i) fm)%list
  /\ error (app (snd cw)) = last (errorsOf attempts) None
  /\ engine (app (snd cw)) = engine (app w).
Proof.
  induction attempts as [|[ps err] rest IH]; intros i c w Hc Ha Hi Hlen Hall.
  - cbn in Hlen; lia.
  - inversion Hall as [|? ? Hex Hrest]; subst.
    cbv zeta; cbn [flat_map].
    change (failingAttempt (ps, err))
      with (map Progress ps ++ [Rejected err])%list.
    rewrite !run_app.
    destruct (run_progress v fm ps c w) as (Hc1 & Hcalls1 & Hframe1 & _).
    destruct (run (stepOf v fm) (map Progress ps) (c, w)) as [c1 w1] eqn:E1.
    cbn [fst snd] in Hc1, Hcalls1, Hframe1; subst c1.
    destruct Hframe1 as (_ & _ & _ & Heng1 & _ & _ & _ & Htried1).
    change (run (stepOf v fm) [Rejected err] (c, w1))
      with (stepOf v fm (Rejected err) (c, w1)).
    rewrite (step_rejected_live v fm c w1 i err Hc Ha).
    unfold exhausts in Hex; cbn [snd] in Hex; cbv zeta; rewrite Hex.
    set (w2 := onApp (setError (Some (messageOrSelf err))) w1).
    destruct (Nat.lt_ge_cases (i + 1) (List.length fm)) as [Hlt|Hge].
    + destruct (loadModelOf_started v fm c (i + 1) w2 Hc Hlt)
        as (Hn & Hcalls & Htried & _ & _ & _ & Heng & _).
      cbv zeta in Hn, Hcalls, Htried, Heng.
      destruct (loadModelOf v fm c (i + 1) w2) as [w3 next].
      cbn [fst snd] in *; subst next.
      assert (Hlen' : List.length rest = List.length fm - (i + 1))
        by (cbn in Hlen; lia).
      destruct (IH (i + 1) (mkClosure false (Some (i + 1))) w3
                  eq_refl eq_refl Hlt Hlen' Hrest)
        as (H1 & H2 & H3 & H4 & H5).
      cbv zeta in H1, H2, H3, H4, H5.
      split; [exact H1|].
      rewrite (skipn_nth_cons fm (S i) []) by lia.
      replace (S i) with (i + 1) by lia.
      split; [rewrite H2, Hcalls; subst w2; cbn; rewrite Hcalls1;
              now rewrite <- app_assoc|].
      split; [rewrite H3, Htried; subst w2; cbn; rewrite Htried1;
              now rewrite <- app_assoc|].
      split.
      * rewrite H4. destruct rest as [|r rest']; [cbn in Hlen'; lia|].
        reflexivity.
      * rewrite H5, Heng; subst w2; cbn; exact Heng1.
    + rewrite (loadModelOf_exhausted v fm c (i + 1) w2 Hge); cbn [fst snd].
      assert (rest = []) by (destruct rest; [reflexivity|cbn in Hlen; lia]).
      subst rest.
      rewrite skipn_all2 by lia; rewrite !app_nil_r.
      subst w2; cbn; repeat split; auto.
Qed.

(** ** Where the effect starts *)

Lemma indexOf_range x l :
  AppV2.indexOf x l = (-1)%Z
  \/ (0 <= AppV2.indexOf x l < Z.of_nat (List.length l))%Z.
Proof.
  induction l as [|y l IH]; [left; reflexivity|].
  cbn [AppV2.indexOf List.length].
  destruct (strictEq y x); [right; lia|].
  destruct IH as [-> | IH]; [left; reflexivity|].
  destruct (AppV2.indexOf x l =? -1)%Z eqn:E; [left; reflexivity|].
  right; lia.
Qed.

Lemma firstIndex_lt v fm a :
  fm <> [] -> firstIndex v fm a < List.length fm.
Proof.
  intros Hne.
  assert (0 < List.length fm) by (destruct fm; [contradiction|cbn; lia]).
  destruct v; cbn; [assumption|].
  unfold AppV2.startIndex.
  destruct (indexOf_range (modelName a) fm) as [-> | Hr]; cbn; [assumption|].
  destruct (AppV2.indexOf (modelName a) fm =? -1)%Z eqn:E; cbn; [assumption|].
  lia.
Qed.

Lemma useEffectOf_unfold v fm w0 :
  engine (app w0) = None ->
  useEffectOf v fm w0
  = (mkClosure false
       (snd (loadModelOf v fm (mkClosure false None)
               (firstIndex v fm (app w0)) w0)),
     fst (loadModelOf v fm (mkClosure false None)
            (firstIndex v fm (app w0)) w0)).
Proof.
  intros He; destruct v;
    unfold useEffectOf, loadModelOf, firstIndex,
      AppV1.useEffect, AppV2.useEffect.
  - now destruct (AppV1.loadModel fm 0 w0).
  - rewrite He.
    now destruct (AppV2.loadModel fm _ (AppV2.startIndex fm (app w0)) w0).
Qed.

Lemma last_nonempty {A} (l : list A) (d d' : A) :
  l <> [] -> last l d = last l d'.
Proof.
  destruct l as [|x l]; [contradiction|]; intros _.
  now rewrite !last_cons_default.
Qed.

(** The state a closure that awaits nothing is left in: what no later
    event of that closure changes. *)
Lemma run_idle_fields v fm evs c w :
  awaiting c = None ->
  createCalls (snd (run (stepOf v fm) evs (c, w))) = createCalls w
  /\ error (app (snd (run (stepOf v fm) evs (c, w)))) = error (app w)
  /\ engine (app (snd (run (stepOf v fm) evs (c, w)))) = engine (app w)
  /\ triedModelsRef (app (snd (run (stepOf v fm) evs (c, w))))
     = triedModelsRef (app w).
Proof.
  intros Ha.
  destruct (run_idle v fm evs c w Ha)
    as (_ & Hcalls & (_ & _ & _ & Heng & _ & _ & Herr & Htried)).
  auto.
Qed.

(** ** The fallback loop *)

(** C1, as amended.  The effect starts at [firstIndex] (0 in [src/App.jsx];
    the position of the selected model in the second version, 0 when it is
    not listed).  If every attempt from there on is rejected with an error
    the heuristic classifies as resource exhaustion, the factory is called
    for each remaining candidate exactly once, in list order; the audit
    list grows by exactly those candidates; the loader ends awaiting
    nothing, with no engine and with the last error kept; and no later
    event of that load calls the factory again or changes the error. *)
Theorem fallback_exhausts_remaining_candidates v fm attempts w0 :
  engine (app w0) = None ->
  List.length attempts = List.length fm - firstIndex v fm (app w0) ->
  Forall exhausts attempts ->
  let cw := run (stepOf v fm) (flat_map failingAttempt attempts)
                (useEffectOf v fm w0) in
  createCalls (snd cw)
  = (createCalls w0 ++ skipn (firstIndex v fm (app w0)) fm)%list
  /\ triedModelsRef (app (snd cw))
     = (triedModelsRef (app w0) ++ skipn (firstIndex v fm (app w0)) fm)%list
  /\ awaiting (fst cw) = None
  /\ engine (app (snd cw)) = None
  /\ error (app (snd cw)) = last (errorsOf attempts) (error (app w0))
  /\ forall evs,
       createCalls (snd (run (stepOf v fm) evs cw)) = createCalls (snd cw)
       /\ error (app (snd (run (stepOf v fm) evs cw))) = error (app (snd cw))
       /\ engine (app (snd (run (stepOf v fm) evs cw))) = None.
Proof.
  intros He Hlen Hall; cbv zeta.
  rewrite (useEffectOf_unfold v fm w0 He).
  set (k := firstIndex v fm (app w0)) in *.
  set (c0 := mkClosure false None).
  assert (Hmain :
    createCalls (snd (run (stepOf v fm) (flat_map failingAttempt attempts)
       (mkClosure false (snd (loadModelOf v fm c0 k w0)),
        fst (loadModelOf v fm c0 k w0))))
    = (createCalls w0 ++ skipn k fm)%list
    /\ triedModelsRef (app (snd (run (stepOf v fm)
         (flat_map failingAttempt attempts)
         (mkClosure false (snd (loadModelOf v fm c0 k w0)),
          fst (loadModelOf v fm c0 k w0)))))
       = (triedModelsRef (app w0) ++ skipn k fm)%list
    /\ awaiting (fst (run (stepOf v fm) (flat_map failingAttempt attempts)
         (mkClosure false (snd (loadModelOf v fm c0 k w0)),
          fst (loadModelOf v fm c0 k w0)))) = None
    /\ engine (app (snd (run (stepOf v fm)
         (flat_map failingAttempt attempts)
         (mkClosure false (snd (loadModelOf v fm c0 k w0)),
          fst (loadModelOf v fm c0 k w0))))) = None
    /\ error (app (snd (run (stepOf v fm)
         (flat_map failingAttempt attempts)
         (mkClosure false (snd (loadModelOf v fm c0 k w0)),
          fst (loadModelOf v fm c0 k w0)))))
       = last (errorsOf attempts) (error (app w0))).
  { destruct (Nat.lt_ge_cases k (List.length fm)) as [Hlt|Hge].
    - destruct (loadModelOf_started v fm c0 k w0 eq_refl Hlt)
        as (Hn & Hcalls & Htried & _ & _ & _ & Heng & _).
      cbv zeta in Hn, Hcalls, Htried, Heng.
      destruct (loadModelOf v fm c0 k w0) as [w1 next].
      cbn [fst snd] in *; subst next.
      destruct (run_failing v fm attempts k (mkClosure false (Some k)) w1
                  eq_refl eq_refl Hlt Hlen Hall) as (H1 & H2 & H3 & H4 & H5).
      cbv zeta in H1, H2, H3, H4, H5.
      rewrite (skipn_nth_cons fm k []) by exact Hlt.
      rewrite H2, H3, H4, H5, Hcalls, Htried, Heng, He, <- !app_assoc.
      repeat split; auto.
      apply last_nonempty.
      destruct attempts; [cbn in Hlen; lia|discriminate].
    - rewrite (loadModelOf_exhausted v fm c0 k w0 Hge); cbn [fst snd].
      assert (attempts = [])
        by (destruct attempts; [reflexivity|cbn in Hlen; lia]).
      subst attempts; cbn.
      rewrite skipn_all2 by exact Hge; rewrite !app_nil_r.
      repeat split; auto. }
  destruct Hmain as (H1 & H2 & H3 & H4 & H5).
  repeat (split; [assumption|]).
  intros evs.
  destruct (run (stepOf v fm) (flat_map failingAttempt attempts) _)
    as [c' w'].
  cbn [fst snd] in *.
  destruct (run_idle_fields v fm evs c' w' H3) as (G1 & G2 & G3 & _).
  rewrite G1, G2, G3; auto.
Qed.

Lemma fallback_exhausts_remaining_candidates_witness :
  let fm := AppV1.fallbackModels_src in
  let attempts :=
    [ ([report 0.5%float], deviceLost); ([], outOfMemory);
      ([report 1%float], deviceLost); ([], deviceLost) ] in
  let cw := run (stepOf App_jsx fm) (flat_map failingAttempt attempts)
                (useEffectOf App_jsx fm (mounted App_jsx)) in
  createCalls (snd cw) = fm
  /\ triedModelsRef (app (snd cw)) = fm
  /\ awaiting (fst cw) = None
  /\ engine (app (snd cw)) = None
  /\ error (app (snd cw)) = Some (js "Device was lost").
Proof.
  cbv zeta.
  destruct (fallback_exhausts_remaining_candidates App_jsx
              AppV1.fallbackModels_src
              [ ([report 0.5%float], deviceLost); ([], outOfMemory);
                ([report 1%float], deviceLost); ([], deviceLost) ]
              (mounted App_jsx))
    as (H1 & H2 & H3 & H4 & H5 & _).
  - reflexivity.
  - reflexivity.
  - repeat constructor.
  - cbv zeta in H1, H2, H3, H4, H5.
    repeat split; assumption.
Defined.

(** C1 as stated fails on the second version: mounted with its default
    selection, the smallest model, at the end of the list, the one attempt
    it makes is rejected with "Device was lost"; the loader stops, and the
    three candidates before the selection were never attempted. *)
Lemma fallback_from_selection_skips_candidates :
  let fm := AppV2.FALLBACK_MODELS in
  let cw := run (stepOf Message_jsx fm) (failingAttempt ([], deviceLost))
                (useEffectOf Message_jsx fm (mounted Message_jsx)) in
  exhausts ([], deviceLost)
  /\ awaiting (fst cw) = None
  /\ createCalls (snd cw) = [js "Llama-3.2-1B-Instruct-q4f16_1-MLC"]
  /\ triedModelsRef (app (snd cw)) = [js "Llama-3.2-1B-Instruct-q4f16_1-MLC"]
  /\ triedModelsRef (app (snd cw)) <> fm
  /\ createCalls (snd cw) <> fm.
Proof.
  cbv zeta; repeat split; try reflexivity; vm_compute; discriminate.
Qed.

(** C2.  When the attempt at index [i] of a live load is rejected with an
    error the heuristic does not classify as resource exhaustion, the
    loader stops: it awaits nothing, the message is stored in [error] as it
    is, [isDownloading] is cleared, the factory is not called (so no
    attempt [i + 1]), and no later event of that load calls the factory or
    changes the stored error. *)
Theorem terminal_error_stops_fallback v fm c w i err :
  cancelled c = false -> awaiting c = Some i ->
  resourceExhaustion (messageOrSelf err) = false ->
  let cw := stepOf v fm (Rejected err) (c, w) in
  awaiting (fst cw) = None
  /\ error (app (snd cw)) = Some (messageOrSelf err)
  /\ isDownloading (app (snd cw)) = false
  /\ engine (app (snd cw)) = engine (app w)
  /\ createCalls (snd cw) = createCalls w
  /\ triedModelsRef (app (snd cw)) = triedModelsRef (app w)
  /\ forall evs,
       createCalls (snd (run (stepOf v fm) evs cw)) = createCalls w
       /\ triedModelsRef (app (snd (run (stepOf v fm) evs cw)))
          = triedModelsRef (app w)
       /\ error (app (snd (run (stepOf v fm) evs cw)))
          = Some (messageOrSelf err).
Proof.
  intros Hc Ha Hno; cbv zeta.
  rewrite (step_rejected_live v fm c w i err Hc Ha); cbv zeta; rewrite Hno.
  cbn [fst snd awaiting app onApp createCalls].
  repeat (split; [reflexivity|]).
  intros evs.
  destruct (run_idle_fields v fm evs (mkClosure false None)
              (onApp (setIsDownloading false)
                 (onApp (setError (Some (messageOrSelf err))) w)) eq_refl)
    as (G1 & G2 & _ & G4).
  rewrite G1, G2, G4; repeat split.
Qed.

Lemma terminal_error_stops_fallback_witness :
  let fm := [js "A"; js "B"] in
  let cw0 := useEffectOf App_jsx fm (mounted App_jsx) in
  let cw := stepOf App_jsx fm (Rejected invalidFormat) cw0 in
  awaiting (fst cw0) = Some 0
  /\ resourceExhaustion (messageOrSelf invalidFormat) = false
  /\ awaiting (fst cw) = None
  /\ error (app (snd cw)) = Some (js "invalid model format")
  /\ createCalls (snd cw) = [js "A"]
  /\ triedModelsRef (app (snd cw)) = [js "A"].
Proof.
  cbv zeta.
  destruct (terminal_error_stops_fallback App_jsx [js "A"; js "B"]
              (fst (useEffectOf App_jsx [js "A"; js "B"] (mounted App_jsx)))
              (snd (useEffectOf App_jsx [js "A"; js "B"] (mounted App_jsx)))
              0 invalidFormat)
    as (H1 & H2 & _ & _ & H5 & H6 & _).
  - reflexivity.
  - reflexivity.
  - reflexivity.
  - cbv zeta in H1, H2, H5, H6.
    repeat split; assumption.
Defined.

(** C3.  On a non-empty list, when the first attempt the effect makes is
    fulfilled (after any progress reports), the engine is stored, the
    progress is 100, [error] is [null] and [isDownloading] is cleared; the
    factory has been called once, for the candidate the effect starts at,
    and no later event of that load calls it again.  In the second version
    the re-run of the effect that storing the engine triggers starts no
    attempt either. *)
Theorem first_success_stops v fm w0 ps created :
  fm <> [] -> engine (app w0) = None ->
  let cw := run (stepOf v fm) (map Progress ps ++ [Resolved created])
                (useEffectOf v fm w0) in
  engine (app (snd cw)) = Some created
  /\ downloadProgress (app (snd cw)) = 100%float
  /\ error (app (snd cw)) = None
  /\ isDownloading (app (snd cw)) = false
  /\ awaiting (fst cw) = None
  /\ createCalls (snd cw)
     = (createCalls w0 ++ [nth (firstIndex v fm (app w0)) fm []])%list
  /\ (forall evs,
        createCalls (snd (run (stepOf v fm) evs cw)) = createCalls (snd cw))
  /\ (v = Message_jsx ->
      createCalls (snd (useEffectOf v fm (snd cw))) = createCalls (snd cw)).
Proof.
  intros Hne He; cbv zeta.
  rewrite (useEffectOf_unfold v fm w0 He).
  pose proof (firstIndex_lt v fm (app w0) Hne) as Hlt.
  set (k := firstIndex v fm (app w0)) in *.
  destruct (loadModelOf_started v fm (mkClosure false None) k w0 eq_refl Hlt)
    as (Hn & Hcalls & _ & Herr & _ & _ & _ & _).
  cbv zeta in Hn, Hcalls, Herr.
  destruct (loadModelOf v fm (mkClosure false None) k w0) as [w1 next].
  cbn [fst snd] in *; subst next.
  rewrite run_app.
  destruct (run_progress v fm ps (mkClosure false (Some k)) w1)
    as (Hc2 & Hcalls2 & Hframe2 & _).
  destruct (run (stepOf v fm) (map Progress ps) _) as [c2 w2].
  cbn [fst snd] in Hc2, Hcalls2, Hframe2; subst c2.
  destruct Hframe2 as (_ & _ & _ & _ & _ & _ & Herr2 & _).
  change (run (stepOf v fm) [Resolved created] (mkClosure false (Some k), w2))
    with (stepOf v fm (Resolved created) (mkClosure false (Some k), w2)).
  rewrite (step_resolved_live v fm (mkClosure false (Some k)) w2 k created
             eq_refl eq_refl).
  cbn [fst snd awaiting app onApp createCalls engine downloadProgress error
       isDownloading setDownloadProgress setIsDownloading setEngine].
  repeat (split; [congruence|]).
  split.
  - intros evs.
    now destruct (run_idle_fields v fm evs (mkClosure false None)
      (onApp (fun a => setDownloadProgress 100%float
                         (setIsDownloading false
                            (setEngine (Some created) a))) w2) eq_refl)
      as (G1 & _).
  - intros ->; reflexivity.
Qed.

Lemma first_success_stops_witness :
  let fm := AppV2.FALLBACK_MODELS in
  let cw := run (stepOf Message_jsx fm)
                (map Progress [report 0.25%float; report 1%float]
                 ++ [Resolved (EngineHandle 1)])
                (useEffectOf Message_jsx fm (mounted Message_jsx)) in
  engine (app (snd cw)) = Some (EngineHandle 1)
  /\ downloadProgress (app (snd cw)) = 100%float
  /\ error (app (snd cw)) = None
  /\ createCalls (snd cw) = [js "Llama-3.2-1B-Instruct-q4f16_1-MLC"].
Proof.
  cbv zeta.
  destruct (first_success_stops Message_jsx AppV2.FALLBACK_MODELS
              (mounted Message_jsx) [report 0.25%float; report 1%float]
              (EngineHandle 1))
    as (H1 & H2 & H3 & _ & _ & H6 & _).
  - discriminate.
  - reflexivity.
  - cbv zeta in H1, H2, H3, H6.
    repeat split; assumption.
Defined.

(** ** Cancellation *)

Lemma step_cancelled v fm ev c w :
  cancelled c = true ->
  snd (stepOf v fm ev (c, w)) = w
  /\ cancelled (fst (stepOf v fm ev (c, w))) = true.
Proof.
  intros Hc.
  destruct w as [a calls].
  destruct v, ev as [p|created|err|];
    unfold stepOf, AppV1.step, AppV2.step, onApp,
      AppV1.initProgressCallback, AppV2.initProgressCallback,
      AppV1.loadModel_fulfilled, AppV2.loadModel_fulfilled,
      AppV1.loadModel_rejected, AppV2.loadModel_rejected;
    try destruct (awaiting c); rewrite ?Hc; cbn [fst snd cancelled app
      createCalls]; split; auto.
Qed.

(** C4.  Once the [cancelled] flag of a load is set, nothing that load
    still does is seen: each event delivered to it (a progress report, the
    fulfilment or the rejection of its promise) returns the world as it
    was, so no field of the state is written and the factory is not
    called; and, interleaved in any way with the events of the load that
    replaced it, the superseded load's events leave the same closure and
    world as those of the current load alone. *)
Theorem cancelled_load_is_inert v fm old :
  cancelled old = true ->
  (forall ev w, snd (stepOf v fm ev (old, w)) = w)
  /\ (forall evs cw,
        snd (runShared (stepOf v fm) evs old cw)
        = run (stepOf v fm) (currentOnly evs) cw).
Proof.
  intros Hc; split.
  - intros ev w; now apply step_cancelled.
  - intros evs; revert old Hc.
    induction evs as [|[[|] ev] evs IH]; intros old Hc [c w].
    + reflexivity.
    + cbn [runShared snd fst].
      destruct (step_cancelled v fm ev old w Hc) as [Hw Hold].
      destruct (stepOf v fm ev (old, w)) as [old' w'].
      cbn [fst snd] in Hw, Hold; subst w'.
      rewrite (IH old' Hold (c, w)); reflexivity.
    + cbn [runShared].
      rewrite (IH old Hc (stepOf v fm ev (c, w))); reflexivity.
Qed.

Lemma cancelled_load_is_inert_witness :
  let fm := AppV2.FALLBACK_MODELS in
  let first := AppV2.useEffect fm (mounted Message_jsx) in
  let switched :=
    onApp (AppV2.handleModelChange (js "n7c2w5de")
             (js "Llama-3.2-3B-Instruct-q4f16_1-MLC")) (snd first) in
  let old := fst (AppV2.rerunEffect fm (fst first) switched) in
  let cw := snd (AppV2.rerunEffect fm (fst first) switched) in
  let evs :=
    [ (Superseded, Progress (report 1%float));
      (Current, Progress (report 0.5%float));
      (Superseded, Resolved (EngineHandle 7)) ] in
  cancelled old = true
  /\ awaiting old = Some 3
  /\ awaiting (fst cw) = Some 2
  /\ snd (stepOf Message_jsx fm (Resolved (EngineHandle 7)) (old, snd cw))
     = snd cw
  /\ snd (runShared (stepOf Message_jsx fm) evs old cw)
     = stepOf Message_jsx fm (Progress (report 0.5%float)) cw
  /\ engine (app (snd (snd (runShared (stepOf Message_jsx fm) evs old cw))))
     = None.
Proof.
  intros fm first switched old cw evs.
  destruct (cancelled_load_is_inert Message_jsx fm old) as [H1 H2].
  - vm_compute; reflexivity.
  - split; [vm_compute; reflexivity|].
    split; [vm_compute; reflexivity|].
    split; [vm_compute; reflexivity|].
    split; [apply H1|].
    split; [apply H2|].
    rewrite H2; vm_compute; reflexivity.
Defined.

(** ** Progress *)

(** C5, as amended.  After every progress report delivered to a live
    attempt the recorded percentage is [Math.round((fraction ?? 0) * 100)]
    of that report, and the loading screen shows the recorded value as it
    is, without a clamp.  Reports in any order cause no failure: the
    attempt stays in flight, [error] is not written and the factory is not
    called. *)
Theorem progress_is_last_report v fm ps p c w :
  cancelled c = false ->
  let cw := run (stepOf v fm) (map Progress (ps ++ [p])) (c, w) in
  downloadProgress (app (snd cw))
  = Math_round
      (PrimFloat.mul
         (match progress p with Some f => f | None => 0%float end) 100%float)
  /\ displayedProgress (app (snd cw)) = downloadProgress (app (snd cw))
  /\ isDownloading (app (snd cw))
     = PrimFloat.ltb (downloadProgress (app (snd cw))) 100%float
  /\ fst cw = c
  /\ error (app (snd cw)) = error (app w)
  /\ engine (app (snd cw)) = engine (app w)
  /\ createCalls (snd cw) = createCalls w.
Proof.
  intros Hc; cbv zeta.
  destruct (run_progress v fm (ps ++ [p]) c w)
    as (H1 & H2 & (_ & _ & _ & Heng & _ & _ & Herr & _) & Hlive).
  destruct (Hlive Hc) as [Hp Hd].
  rewrite (map_app percentOf) in Hp.
  rewrite (map_app (fun q => PrimFloat.ltb (percentOf q) 100%float)) in Hd.
  cbn [map] in Hp, Hd; rewrite last_last in Hp, Hd.
  rewrite Hd, Hp.
  repeat split; auto.
Qed.

Lemma progress_is_last_report_witness :
  let cw := run (stepOf App_jsx AppV1.fallbackModels_src)
                (map Progress ([report 0.5%float] ++ [report number_0_285]))
                (useEffectOf App_jsx AppV1.fallbackModels_src
                   (mounted App_jsx)) in
  downloadProgress (app (snd cw)) = 28%float
  /\ awaiting (fst cw) = Some 0
  /\ error (app (snd cw)) = None.
Proof.
  cbv zeta.
  destruct (progress_is_last_report App_jsx AppV1.fallbackModels_src
              [report 0.5%float] (report number_0_285)
              (fst (useEffectOf App_jsx AppV1.fallbackModels_src
                      (mounted App_jsx)))
              (snd (useEffectOf App_jsx AppV1.fallbackModels_src
                      (mounted App_jsx))))
    as (H1 & _ & _ & H4 & H5 & _).
  - reflexivity.
  - cbv zeta in H1, H4, H5.
    split; [exact H1|].
    split; [exact (f_equal awaiting H4)|exact H5].
Defined.

(** C5 as stated fails: nothing clamps the displayed value.  In either
    version a report of 0.5 followed by one of 0.25, within one attempt,
    takes the displayed progress from 50 down to 25. *)
Lemma displayed_progress_decreases :
  let c := mkClosure false (Some 0) in
  let a1 := AppV1.initProgressCallback c (report 0.5%float)
              (app (mounted App_jsx)) in
  let a2 := AppV1.initProgressCallback c (report 0.25%float) a1 in
  let b1 := AppV2.initProgressCallback c (report 0.5%float)
              (app (mounted Message_jsx)) in
  let b2 := AppV2.initProgressCallback c (report 0.25%float) b1 in
  (displayedProgress a1 = 50%float
   /\ displayedProgress a2 = 25%float
   /\ PrimFloat.ltb (displayedProgress a2) (displayedProgress a1) = true)
  /\ (displayedProgress b1 = 50%float
      /\ displayedProgress b2 = 25%float
      /\ PrimFloat.ltb (displayedProgress b2) (displayedProgress b1) = true).
Proof.
  vm_compute; repeat split.
Qed.

(** ** Exhaustion and [isDownloading] *)

Lemma last_all_true {A} (f : A -> bool) (l : list A) :
  Forall (fun x => f x = true) l -> last (map f l) true = true.
Proof.
  induction 1 as [|x l Hx Hl IH]; [reflexivity|].
  cbn [map]; rewrite last_cons_default.
  destruct l as [|y l']; [exact Hx|].
  rewrite <- IH; cbn [map]; now rewrite !last_cons_default.
Qed.

(** C10.  When the attempt on the last candidate of a live load is
    rejected with a resource-exhaustion error, the loader stops without
    writing [isDownloading]: the flag keeps the value it had.  Counted from
    the start of that attempt, that value is the [percent < 100] of the
    last progress report, and [true] when there was none; so it is [true]
    whenever every report was below 100. *)
Theorem exhaustion_keeps_isDownloading v fm c err :
  fm <> [] -> cancelled c = false ->
  awaiting c = Some (List.length fm - 1) ->
  resourceExhaustion (messageOrSelf err) = true ->
  (forall w,
     let cw := stepOf v fm (Rejected err) (c, w) in
     awaiting (fst cw) = None
     /\ isDownloading (app (snd cw)) = isDownloading (app w)
     /\ downloadProgress (app (snd cw)) = downloadProgress (app w)
     /\ error (app (snd cw)) = Some (messageOrSelf err)
     /\ createCalls (snd cw) = createCalls w)
  /\ (forall w0 ps,
        let started := fst (loadModelOf v fm c (List.length fm - 1) w0) in
        let cw := stepOf v fm (Rejected err)
                    (run (stepOf v fm) (map Progress ps) (c, started)) in
        isDownloading (app (snd cw))
        = last (map (fun p => PrimFloat.ltb (percentOf p) 100%float) ps) true
        /\ (Forall (fun p => PrimFloat.ltb (percentOf p) 100%float = true) ps
            -> isDownloading (app (snd cw)) = true)).
Proof.
  intros Hne Hc Ha Hex.
  assert (Hlen : 0 < List.length fm)
    by (destruct fm; [contradiction|cbn; lia]).
  assert (Hstep : forall w,
    stepOf v fm (Rejected err) (c, w)
    = (mkClosure false None,
       onApp (setError (Some (messageOrSelf err))) w)).
  { intros w.
    rewrite (step_rejected_live v fm c w _ err Hc Ha); cbv zeta; rewrite Hex.
    rewrite loadModelOf_exhausted by lia; reflexivity. }
  split.
  - intros w; cbv zeta; rewrite Hstep; cbn; repeat split.
  - intros w0 ps; cbv zeta.
    destruct (loadModelOf_started v fm c (List.length fm - 1) w0 Hc)
      as (_ & _ & _ & _ & Hdl & _); [lia|].
    cbv zeta in Hdl.
    destruct (run_progress v fm ps c
                (fst (loadModelOf v fm c (List.length fm - 1) w0)))
      as (H1 & _ & _ & Hlive).
    destruct (Hlive Hc) as [_ Hd].
    destruct (run (stepOf v fm) (map Progress ps) _) as [c1 w1].
    cbn [fst snd] in H1, Hd; subst c1.
    rewrite Hstep; cbn [snd app onApp isDownloading setError].
    rewrite Hd, Hdl.
    split; [reflexivity|apply last_all_true].
Qed.

Lemma exhaustion_keeps_isDownloading_witness :
  let fm := AppV1.fallbackModels_src in
  let c := mkClosure false (Some 3) in
  let started := fst (loadModelOf App_jsx fm c 3 (mounted App_jsx)) in
  let cw := stepOf App_jsx fm (Rejected outOfMemory)
              (run (stepOf App_jsx fm) (map Progress [report 0.75%float])
                 (c, started)) in
  awaiting (fst cw) = None
  /\ isDownloading (app (snd cw)) = true
  /\ downloadProgress (app (snd cw)) = 75%float
  /\ engine (app (snd cw)) = None.
Proof.
  cbv zeta.
  destruct (exhaustion_keeps_isDownloading App_jsx AppV1.fallbackModels_src
              (mkClosure false (Some 3)) outOfMemory)
    as [_ H2].
  - discriminate.
  - reflexivity.
  - reflexivity.
  - reflexivity.
  - destruct (H2 (mounted App_jsx) [report 0.75%float]) as [_ H3].
    cbv zeta in H3.
    split; [reflexivity|].
    split; [apply H3; repeat constructor|].
    split; reflexivity.
Defined.

(** ** The transcript *)

Lemma resolvePlaceholder_length pid reply m :
  List.length (resolvePlaceholder pid reply m) = List.length m.
Proof. apply length_map. Qed.

Lemma resolvePlaceholder_fresh pid reply m :
  (forall x, In x m -> id x <> pid) -> resolvePlaceholder pid reply m = m.
Proof.
  induction m as [|x m IH]; intros Hfresh; [reflexivity|].
  cbn [resolvePlaceholder map].
  rewrite strictEq_neq by (apply Hfresh; now left).
  f_equal; apply IH; intros y Hy; apply Hfresh; now right.
Qed.

(** Resolving the placeholder of a transcript that ends with a user
    message and that placeholder, all other ids being different. *)
Lemma resolvePlaceholder_appended pid uid_ reply value shown flag m :
  pid <> uid_ -> (forall x, In x m -> id x <> pid) ->
  resolvePlaceholder pid reply
    (m ++ [mkMessage uid_ user value None;
           mkMessage pid system shown flag])
  = (m ++ [mkMessage uid_ user value None;
           mkMessage pid system reply (Some false)])%list.
Proof.
  intros Hne Hfresh.
  unfold resolvePlaceholder; rewrite map_app.
  fold (resolvePlaceholder pid reply m).
  rewrite (resolvePlaceholder_fresh pid reply m Hfresh).
  cbn [map id role].
  rewrite (strictEq_neq uid_ pid) by congruence.
  now rewrite strictEq_refl.
Qed.

Lemma handleSubmit_accepted userId placeholderId a :
  whitespaceOnly (input a) = false -> loading a = false ->
  handleSubmit userId placeholderId a
  = let a' :=
      setLoading true
        (setInput []
           (setMessages
              (fun m => m ++ [mkMessage userId user (trim (input a)) None;
                              mkMessage placeholderId system
                                (js "Thinking...") (Some true)])%list a)) in
    match generateReply (trim (input a)) a with
    | Immediately reply =>
        (handleSubmit_resume placeholderId reply a', Returned)
    | AwaitEngine eng prompt => (a', AwaitReply eng prompt placeholderId)
    end.
Proof.
  intros Hws Hl; unfold handleSubmit.
  now rewrite truthy_trim, Hws, Hl.
Qed.

Lemma resolvePlaceholder_other pid reply l k m :
  nth_error l k = Some m -> id m <> pid ->
  nth_error (resolvePlaceholder pid reply l) k = Some m.
Proof.
  intros Hk Hid; unfold resolvePlaceholder.
  rewrite (map_nth_error _ _ _ Hk).
  now rewrite (strictEq_neq (id m) pid Hid).
Qed.

Lemma resolvePlaceholder_same pid reply l k m :
  nth_error l k = Some m -> id m = pid ->
  nth_error (resolvePlaceholder pid reply l) k
  = Some (mkMessage pid (role m) reply (Some false)).
Proof.
  intros Hk Hid; unfold resolvePlaceholder.
  rewrite (map_nth_error _ _ _ Hk).
  now rewrite Hid, strictEq_refl.
Qed.

(** The placeholder sits two entries after the old transcript, and the
    resolution finds it there whatever the other ids are. *)
Lemma resolvePlaceholder_at_placeholder pid reply m userMsg shown flag :
  nth_error
    (resolvePlaceholder pid reply
       (m ++ [userMsg; mkMessage pid system shown flag]))
    (S (List.length m))
  = Some (mkMessage pid system reply (Some false)).
Proof.
  apply (resolvePlaceholder_same pid reply _ _
           (mkMessage pid system shown flag)); [|reflexivity].
  rewrite nth_error_app2 by lia.
  replace (S (List.length m) - List.length m) with 1 by lia.
  reflexivity.
Qed.

(** A reply of [generateReply] comes with the transcript and [loading]
    untouched. *)
Lemma generateReply_settled_frame g a reply a' :
  generateReply_settled g a = Some (reply, a') ->
  messages a' = messages a /\ loading a' = loading a
  /\ input a' = input a /\ engine a' = engine a.
Proof.
  destruct g as [content|err interpolates]; cbn.
  - intros H; inversion H; subst; auto.
  - destruct (interpolated err interpolates); [|discriminate].
    intros H; inversion H; subst; auto.
Qed.

Lemma handleSubmit_settled_length pid g a :
  List.length (messages (handleSubmit_settled pid g a))
  = List.length (messages a).
Proof.
  unfold handleSubmit_settled.
  destruct (generateReply_settled g a) as [[reply a']|] eqn:E;
    [|reflexivity].
  destruct (generateReply_settled_frame g a reply a' E) as (Hm & _).
  unfold handleSubmit_resume; cbn.
  now rewrite resolvePlaceholder_length, Hm.
Qed.

(** C6, as amended.  A submit of text that is not white space only, with
    an engine held and no generation in flight: the user message and then
    the pending placeholder are appended at once and the handler waits for
    the engine, prompted with the trimmed text alone.  When
    [generateReply] then returns its reply, on any later state with that
    transcript, the entries carrying the placeholder's id are replaced in
    place (reply as content, [pending] false, same id, role and position):
    the placeholder always, and it alone when the two ids drawn are new to
    the transcript and different.  Entries with another id are as they
    were, and no settlement changes the length of a transcript. *)
Theorem submit_appends_two_then_resolves_placeholder
    userId placeholderId a eng :
  whitespaceOnly (input a) = false -> loading a = false ->
  engine a = Some eng ->
  let value := trim (input a) in
  let userMsg := mkMessage userId user value None in
  let placeholder :=
    mkMessage placeholderId system (js "Thinking...") (Some true) in
  let r := handleSubmit userId placeholderId a in
  snd r = AwaitReply eng value placeholderId
  /\ messages (fst r) = (messages a ++ [userMsg; placeholder])%list
  /\ loading (fst r) = true
  /\ (forall g a1 reply a2,
        messages a1 = messages (fst r) ->
        generateReply_settled g a1 = Some (reply, a2) ->
        messages (handleSubmit_settled placeholderId g a1)
        = resolvePlaceholder placeholderId reply
            (messages a ++ [userMsg; placeholder])
        /\ nth_error (messages (handleSubmit_settled placeholderId g a1))
             (S (List.length (messages a)))
           = Some (mkMessage placeholderId system reply (Some false))
        /\ (forall k m,
              nth_error (messages a1) k = Some m -> id m <> placeholderId ->
              nth_error (messages (handleSubmit_settled placeholderId g a1)) k
              = Some m)
        /\ (forall k m,
              nth_error (messages a1) k = Some m -> id m = placeholderId ->
              nth_error (messages (handleSubmit_settled placeholderId g a1)) k
              = Some (mkMessage placeholderId (role m) reply (Some false)))
        /\ (placeholderId <> userId ->
            (forall m, In m (messages a) -> id m <> placeholderId) ->
            messages (handleSubmit_settled placeholderId g a1)
            = (messages a
               ++ [userMsg;
                   mkMessage placeholderId system reply (Some false)])%list)
        /\ loading (handleSubmit_settled placeholderId g a1) = false)
  /\ (forall g a1,
        List.length (messages (handleSubmit_settled placeholderId g a1))
        = List.length (messages a1)).
Proof.
  intros Hws Hl He; cbv zeta.
  rewrite (handleSubmit_accepted userId placeholderId a Hws Hl); cbv zeta.
  unfold generateReply; rewrite He; cbn [fst snd].
  split; [reflexivity|]. split; [reflexivity|]. split; [reflexivity|].
  split; [|intros g a1; apply handleSubmit_settled_length].
  intros g a1 reply a2 Hm E.
  cbn [messages setLoading setInput setMessages] in Hm.
  destruct (generateReply_settled_frame g a1 reply a2 E) as (Hm2 & _).
  assert (Hafter :
    handleSubmit_settled placeholderId g a1
    = handleSubmit_resume placeholderId reply a2)
    by (unfold handleSubmit_settled; now rewrite E).
  rewrite Hafter; unfold handleSubmit_resume.
  cbn [messages loading setLoading setMessages].
  rewrite Hm2, Hm.
  split; [reflexivity|].
  split; [apply resolvePlaceholder_at_placeholder|].
  split; [intros k m; apply resolvePlaceholder_other|].
  split; [intros k m; apply resolvePlaceholder_same|].
  split; [|reflexivity].
  intros Hne Hfresh; now apply resolvePlaceholder_appended.
Qed.

Lemma submit_appends_two_then_resolves_placeholder_witness :
  let a := chatting (js "  hi ") (Some (EngineHandle 1)) in
  let r := handleSubmit (js "u0000001") (js "p0000002") a in
  let a' := handleSubmit_settled (js "p0000002")
              (Completed (Some (js "Hello!"))) (fst r) in
  snd r = AwaitReply (EngineHandle 1) (js "hi") (js "p0000002")
  /\ List.length (messages (fst r)) = 3
  /\ messages a'
     = (messages a
        ++ [mkMessage (js "u0000001") user (js "hi") None;
            mkMessage (js "p0000002") system (js "Hello!") (Some false)])%list.
Proof.
  intros a r a'.
  destruct (submit_appends_two_then_resolves_placeholder
              (js "u0000001") (js "p0000002") a (EngineHandle 1))
    as (H1 & H2 & _ & H4 & _); try reflexivity.
  split; [exact H1|].
  split; [fold r in H2; now rewrite H2|].
  destruct (H4 (Completed (Some (js "Hello!"))) (fst r) (js "Hello!") (fst r)
              eq_refl eq_refl) as (_ & _ & _ & _ & H5 & _).
  apply H5; [vm_compute; discriminate|].
  intros m [<-|[]]; vm_compute; discriminate.
Defined.

(** C6 as stated fails when [uid()] repeats an id: the greeting carries
    the id "k3x9q0ab", the placeholder draws the same one, and when the
    engine answers "Hello!" the resolution rewrites the greeting as well as
    the placeholder, so an entry other than the placeholder is changed. *)
Lemma repeated_id_rewrites_another_entry :
  let a := chatting (js "hi") (Some (EngineHandle 1)) in
  let r := handleSubmit (js "u0000001") (js "k3x9q0ab") a in
  let a' := handleSubmit_settled (js "k3x9q0ab")
              (Completed (Some (js "Hello!"))) (fst r) in
  whitespaceOnly (input a) = false
  /\ loading a = false
  /\ snd r = AwaitReply (EngineHandle 1) (js "hi") (js "k3x9q0ab")
  /\ nth_error (messages (fst r)) 0
     = Some (mkMessage (js "k3x9q0ab") system
               (js "Hi! How can I help you today?") None)
  /\ nth_error (messages a') 0
     = Some (mkMessage (js "k3x9q0ab") system (js "Hello!") (Some false))
  /\ nth_error (messages a') 2
     = Some (mkMessage (js "k3x9q0ab") system (js "Hello!") (Some false))
  /\ nth_error (messages a') 0 <> nth_error (messages (fst r)) 0.
Proof.
  cbv zeta; repeat split; try reflexivity.
  vm_compute; discriminate.
Qed.

(** C7.  A submit whose input is empty or white space only, or that comes
    while a generation is in flight, returns at once and leaves the whole
    state as it was. *)
Theorem blank_or_busy_submit_is_ignored userId placeholderId a :
  whitespaceOnly (input a) = true \/ loading a = true ->
  handleSubmit userId placeholderId a = (a, Returned).
Proof.
  intros H; unfold handleSubmit; rewrite truthy_trim.
  destruct H as [-> | ->]; [reflexivity|].
  now rewrite orb_true_r.
Qed.

Lemma blank_or_busy_submit_is_ignored_witness :
  let a := chatting (js "   ") (Some (EngineHandle 1)) in
  handleSubmit (js "u0000001") (js "p0000002") a = (a, Returned)
  /\ handleSubmit (js "u0000001") (js "p0000002")
       (setLoading true (chatting (js "hi") (Some (EngineHandle 1))))
     = (setLoading true (chatting (js "hi") (Some (EngineHandle 1))),
        Returned).
Proof.
  cbv zeta; split.
  - apply blank_or_busy_submit_is_ignored; left; reflexivity.
  - apply blank_or_busy_submit_is_ignored; right; reflexivity.
Defined.

(** C8, as amended.  A submit of text that is not white space only while
    no engine is held (and no generation is in flight) is accepted: the
    user message and the placeholder are appended, the engine is not
    called, and the handler runs to its end with the placeholder resolved
    to the fixed reply "Engine not initialized", [pending] false; nothing
    is thrown, and [error] and [engine] are as they were.  The resolution
    is the one of every submit: it reaches the entries carrying the
    placeholder's id, the placeholder always, and it alone when the ids
    drawn are new to the transcript and different. *)
Theorem submit_without_engine_replies_not_ready userId placeholderId a :
  whitespaceOnly (input a) = false -> loading a = false ->
  engine a = None ->
  let userMsg := mkMessage userId user (trim (input a)) None in
  let placeholder :=
    mkMessage placeholderId system (js "Thinking...") (Some true) in
  let reply := js "Engine not initialized" in
  let r := handleSubmit userId placeholderId a in
  snd r = Returned
  /\ messages (fst r)
     = resolvePlaceholder placeholderId reply
         (messages a ++ [userMsg; placeholder])
  /\ List.length (messages (fst r)) = List.length (messages a) + 2
  /\ nth_error (messages (fst r)) (S (List.length (messages a)))
     = Some (mkMessage placeholderId system reply (Some false))
  /\ (forall k m,
        nth_error (messages a ++ [userMsg; placeholder]) k = Some m ->
        id m <> placeholderId ->
        nth_error (messages (fst r)) k = Some m)
  /\ (placeholderId <> userId ->
      (forall m, In m (messages a) -> id m <> placeholderId) ->
      messages (fst r)
      = (messages a
         ++ [userMsg;
             mkMessage placeholderId system reply (Some false)])%list)
  /\ loading (fst r) = false
  /\ input (fst r) = []
  /\ error (fst r) = error a
  /\ engine (fst r) = None.
Proof.
  intros Hws Hl He; cbv zeta.
  rewrite (handleSubmit_accepted userId placeholderId a Hws Hl); cbv zeta.
  unfold generateReply; rewrite He; cbn [fst snd].
  unfold handleSubmit_resume, setLoading, setInput, setMessages.
  cbn [messages loading input error engine].
  split; [reflexivity|]. split; [reflexivity|].
  split; [rewrite resolvePlaceholder_length, length_app; cbn; lia|].
  split; [apply resolvePlaceholder_at_placeholder|].
  split; [intros k m; apply resolvePlaceholder_other|].
  split; [intros Hne Hfresh; now apply resolvePlaceholder_appended|].
  repeat split; assumption.
Qed.

Lemma submit_without_engine_replies_not_ready_witness :
  let a := chatting (js "hi") None in
  let r := handleSubmit (js "u0000001") (js "p0000002") a in
  snd r = Returned
  /\ messages (fst r)
     = (messages a
        ++ [mkMessage (js "u0000001") user (js "hi") None;
            mkMessage (js "p0000002") system (js "Engine not initialized")
              (Some false)])%list.
Proof.
  intros a r.
  destruct (submit_without_engine_replies_not_ready
              (js "u0000001") (js "p0000002") a)
    as (H1 & _ & _ & _ & _ & H6 & _); try reflexivity.
  split; [exact H1|].
  apply H6; [vm_compute; discriminate|].
  intros m [<-|[]]; vm_compute; discriminate.
Defined.

(** C8 as stated fails: with no engine held, submitting "hi" is not
    rejected; the state changes, the transcript growing from one entry to
    three. *)
Lemma submit_without_engine_changes_state :
  let a := chatting (js "hi") None in
  let r := handleSubmit (js "u0000001") (js "p0000002") a in
  engine a = None
  /\ whitespaceOnly (input a) = false
  /\ loading a = false
  /\ fst r <> a
  /\ List.length (messages a) = 1
  /\ List.length (messages (fst r)) = 3.
Proof.
  cbv zeta; repeat split; try reflexivity.
  intros H; apply (f_equal (fun s => List.length (messages s))) in H.
  vm_compute in H; discriminate.
Qed.




(** ** The loader under arbitrary events *)

Lemma firstn_plus {A} (n m : nat) (l : list A) :
  firstn (n + m) l = (firstn n l ++ firstn m (skipn n l))%list.
Proof.
  revert l; induction n as [|n IH]; intros l; [reflexivity|].
  destruct l as [|x l]; cbn [Nat.add firstn skipn app].
  - now rewrite firstn_nil.
  - now rewrite IH.
Qed.

Lemma skipn_plus {A} (n m : nat) (l : list A) :
  skipn m (skipn n l) = skipn (n + m) l.
Proof.
  revert l; induction n as [|n IH]; intros l; [reflexivity|].
  destruct l as [|x l]; cbn [Nat.add skipn]; [apply skipn_nil|apply IH].
Qed.

Lemma step_cleanup v fm c w :
  stepOf v fm Cleanup (c, w) = (mkClosure true (awaiting c), w).
Proof. destruct v; reflexivity. Qed.

Lemma step_settled_idle v fm ev c w :
  awaiting c = None ->
  (exists created, ev = Resolved created) \/ (exists err, ev = Rejected err) ->
  stepOf v fm ev (c, w) = (c, w).
Proof.
  intros Ha [[created ->]|[err ->]]; destruct v; cbn; now rewrite Ha.
Qed.

Lemma step_settled_cancelled v fm ev c w i :
  cancelled c = true -> awaiting c = Some i ->
  (exists created, ev = Resolved created) \/ (exists err, ev = Rejected err) ->
  stepOf v fm ev (c, w) = (mkClosure true None, w).
Proof.
  intros Hc Ha [[created ->]|[err ->]]; destruct v, w as [a calls]; cbn;
    rewrite Ha; unfold AppV1.loadModel_fulfilled, AppV2.loadModel_fulfilled,
      AppV1.loadModel_rejected, AppV2.loadModel_rejected, onApp;
    rewrite Hc; reflexivity.
Qed.

(** One event makes at most one factory call, for the candidate right
    after the awaited index. *)
Lemma step_segment v fm ev c w :
  exists k,
    createCalls (snd (stepOf v fm ev (c, w)))
    = (createCalls w ++ firstn k (remaining fm c))%list
    /\ triedModelsRef (app (snd (stepOf v fm ev (c, w))))
       = (triedModelsRef (app w) ++ firstn k (remaining fm c))%list
    /\ (remaining fm (fst (stepOf v fm ev (c, w)))
        = skipn k (remaining fm c)
        \/ remaining fm (fst (stepOf v fm ev (c, w))) = []).
Proof.
  assert (Hsame : forall c' w',
    createCalls w' = createCalls w ->
    triedModelsRef (app w') = triedModelsRef (app w) ->
    (awaiting c' = awaiting c \/ awaiting c' = None) ->
    stepOf v fm ev (c, w) = (c', w') ->
    exists k,
      createCalls (snd (stepOf v fm ev (c, w)))
      = (createCalls w ++ firstn k (remaining fm c))%list
      /\ triedModelsRef (app (snd (stepOf v fm ev (c, w))))
         = (triedModelsRef (app w) ++ firstn k (remaining fm c))%list
      /\ (remaining fm (fst (stepOf v fm ev (c, w)))
          = skipn k (remaining fm c)
          \/ remaining fm (fst (stepOf v fm ev (c, w))) = [])).
  { intros c' w' H1 H2 H3 ->; exists 0; cbn [fst snd firstn skipn].
    rewrite !app_nil_r; split; [exact H1|]; split; [exact H2|].
    unfold remaining; destruct H3 as [-> | ->]; [left|right]; reflexivity. }
  destruct ev as [p|created|err|].
  - refine (Hsame _ _ _ _ _ (step_progress v fm p c w));
      [reflexivity| |left; reflexivity].
    cbn [app onApp].
    now destruct (initProgressCallback_frame v c p (app w))
      as (_ & _ & _ & _ & _ & _ & _ & ->).
  - destruct (awaiting c) as [i|] eqn:Ha.
    + destruct (cancelled c) eqn:Hc.
      * refine (Hsame _ _ _ _ _
          (step_settled_cancelled v fm _ c w i Hc Ha
             (or_introl (ex_intro _ created eq_refl))));
          [reflexivity|reflexivity|right; reflexivity].
      * refine (Hsame _ _ _ _ _
          (step_resolved_live v fm c w i created Hc Ha));
          [reflexivity|reflexivity|right; reflexivity].
    + refine (Hsame _ _ _ _ _
        (step_settled_idle v fm _ c w Ha
           (or_introl (ex_intro _ created eq_refl))));
        [reflexivity|reflexivity|left; exact Ha].
  - destruct (awaiting c) as [i|] eqn:Ha.
    + destruct (cancelled c) eqn:Hc.
      * refine (Hsame _ _ _ _ _
          (step_settled_cancelled v fm _ c w i Hc Ha
             (or_intror (ex_intro _ err eq_refl))));
          [reflexivity|reflexivity|right; reflexivity].
      * pose proof (step_rejected_live v fm c w i err Hc Ha) as Hstep.
        cbv zeta in Hstep.
        destruct (resourceExhaustion (messageOrSelf err)).
        -- set (w1 := onApp (setError (Some (messageOrSelf err))) w) in *.
           destruct (Nat.lt_ge_cases (i + 1) (List.length fm)) as [Hlt|Hge].
           ++ destruct (loadModelOf_started v fm c (i + 1) w1 Hc Hlt)
                as (Hn & Hcalls & Htried & _).
              cbv zeta in Hn, Hcalls, Htried.
              rewrite Hstep; cbn [fst snd]; exists 1.
              unfold remaining; cbn [awaiting]; rewrite Hn, Ha.
              rewrite (skipn_nth_cons fm (S i) []) by lia.
              replace (i + 1) with (S i) in * by lia.
              cbn [firstn skipn].
              split; [exact Hcalls|]; split; [exact Htried|].
              left; reflexivity.
           ++ rewrite (loadModelOf_exhausted v fm c (i + 1) w1 Hge) in Hstep.
              refine (Hsame _ _ _ _ _ Hstep);
                [reflexivity|reflexivity|right; reflexivity].
        -- refine (Hsame _ _ _ _ _ Hstep);
             [reflexivity|reflexivity|right; reflexivity].
    + refine (Hsame _ _ _ _ _
        (step_settled_idle v fm _ c w Ha
           (or_intror (ex_intro _ err eq_refl))));
        [reflexivity|reflexivity|left; exact Ha].
  - refine (Hsame _ _ _ _ _ (step_cleanup v fm c w));
      [reflexivity|reflexivity|left; reflexivity].
Qed.

Lemma run_segment v fm evs : forall c w,
  exists k,
    createCalls (snd (run (stepOf v fm) evs (c, w)))
    = (createCalls w ++ firstn k (remaining fm c))%list
    /\ triedModelsRef (app (snd (run (stepOf v fm) evs (c, w))))
       = (triedModelsRef (app w) ++ firstn k (remaining fm c))%list.
Proof.
  induction evs as [|ev evs IH]; intros c w.
  - exists 0; cbn; now rewrite !app_nil_r.
  - rewrite run_cons.
    destruct (step_segment v fm ev c w) as (k1 & H1 & H2 & H3).
    destruct (stepOf v fm ev (c, w)) as [c1 w1]; cbn [fst snd] in *.
    destruct (IH c1 w1) as (k2 & G1 & G2).
    destruct H3 as [H3|H3]; rewrite H3 in G1, G2.
    + exists (k1 + k2).
      rewrite G1, G2, H1, H2, firstn_plus, <- !app_assoc; split; reflexivity.
    + exists k1.
      rewrite firstn_nil, app_nil_r in G1, G2.
      rewrite G1, G2; split; assumption.
Qed.

(** The effect either starts no attempt (the list does not reach the start
    index or, in the second version, an engine is held) or starts the one
    at the start index. *)
Lemma useEffectOf_cases v fm w0 :
  useEffectOf v fm w0 = (mkClosure false None, w0)
  \/ (firstIndex v fm (app w0) < List.length fm
      /\ fst (useEffectOf v fm w0)
         = mkClosure false (Some (firstIndex v fm (app w0)))
      /\ createCalls (snd (useEffectOf v fm w0))
         = (createCalls w0 ++ [nth (firstIndex v fm (app w0)) fm []])%list
      /\ triedModelsRef (app (snd (useEffectOf v fm w0)))
         = (triedModelsRef (app w0)
            ++ [nth (firstIndex v fm (app w0)) fm []])%list
      /\ error (app (snd (useEffectOf v fm w0))) = None
      /\ engine (app (snd (useEffectOf v fm w0))) = engine (app w0)).
Proof.
  assert (Hgo :
    useEffectOf v fm w0
    = (mkClosure false
         (snd (loadModelOf v fm (mkClosure false None)
                 (firstIndex v fm (app w0)) w0)),
       fst (loadModelOf v fm (mkClosure false None)
              (firstIndex v fm (app w0)) w0)) ->
    useEffectOf v fm w0 = (mkClosure false None, w0)
    \/ (firstIndex v fm (app w0) < List.length fm
        /\ fst (useEffectOf v fm w0)
           = mkClosure false (Some (firstIndex v fm (app w0)))
        /\ createCalls (snd (useEffectOf v fm w0))
           = (createCalls w0 ++ [nth (firstIndex v fm (app w0)) fm []])%list
        /\ triedModelsRef (app (snd (useEffectOf v fm w0)))
           = (triedModelsRef (app w0)
              ++ [nth (firstIndex v fm (app w0)) fm []])%list
        /\ error (app (snd (useEffectOf v fm w0))) = None
        /\ engine (app (snd (useEffectOf v fm w0))) = engine (app w0))).
  { intros ->.
    destruct (Nat.lt_ge_cases (firstIndex v fm (app w0)) (List.length fm))
      as [Hlt|Hge].
    - right.
      destruct (loadModelOf_started v fm (mkClosure false None)
                  (firstIndex v fm (app w0)) w0 eq_refl Hlt)
        as (Hn & Hcalls & Htried & Herr & _ & _ & Heng & _).
      cbv zeta in Hn, Hcalls, Htried, Herr, Heng.
      cbn [fst snd]; rewrite Hn; auto 7.
    - left; now rewrite (loadModelOf_exhausted v fm _ _ w0 Hge). }
  destruct (engine (app w0)) as [e|] eqn:He.
  - destruct v.
    + apply Hgo; unfold useEffectOf, loadModelOf, firstIndex, AppV1.useEffect.
      now destruct (AppV1.loadModel fm 0 w0).
    + left; cbn; unfold AppV2.useEffect; now rewrite He.
  - apply Hgo, useEffectOf_unfold, He.
Qed.

(** X1.  Whatever events reach a run of the effect, and in whatever
    order, the factory calls it makes are a prefix of the candidates from
    the start index on: list order, no position twice, none skipped; the
    audit list grows by the same models; so one run never makes more calls
    than there are candidates from its start index. *)
Theorem attempts_are_a_run_of_the_list v fm evs w0 :
  exists k,
    createCalls (snd (run (stepOf v fm) evs (useEffectOf v fm w0)))
    = (createCalls w0
       ++ firstn k (skipn (firstIndex v fm (app w0)) fm))%list
    /\ triedModelsRef
         (app (snd (run (stepOf v fm) evs (useEffectOf v fm w0))))
       = (triedModelsRef (app w0)
          ++ firstn k (skipn (firstIndex v fm (app w0)) fm))%list
    /\ List.length
         (createCalls (snd (run (stepOf v fm) evs (useEffectOf v fm w0))))
       <= List.length (createCalls w0)
          + (List.length fm - firstIndex v fm (app w0)).
Proof.
  assert (Hlen : forall k,
    List.length (createCalls w0
                 ++ firstn k (skipn (firstIndex v fm (app w0)) fm))
    <= List.length (createCalls w0)
       + (List.length fm - firstIndex v fm (app w0))).
  { intros k; rewrite length_app, length_firstn, length_skipn; lia. }
  destruct (useEffectOf_cases v fm w0)
    as [E | (Hlt & Hc & Hcalls & Htried & _)].
  - rewrite E.
    destruct (run_segment v fm evs (mkClosure false None) w0)
      as (k & H1 & H2).
    exists 0; cbn [remaining awaiting] in H1, H2.
    rewrite firstn_nil in H1, H2; cbn [firstn].
    rewrite H1, H2; repeat split; auto.
    rewrite app_nil_r; lia.
  - destruct (useEffectOf v fm w0) as [c1 w1]; cbn [fst snd] in *; subst c1.
    destruct (run_segment v fm evs
                (mkClosure false (Some (firstIndex v fm (app w0)))) w1)
      as (k & H1 & H2).
    unfold remaining in H1, H2; cbn [awaiting] in H1, H2.
    exists (1 + k).
    rewrite (firstn_plus 1 k).
    rewrite (skipn_nth_cons fm (firstIndex v fm (app w0)) []) by exact Hlt.
    cbn [firstn skipn].
    assert (G1 : createCalls (snd (run (stepOf v fm) evs
        (mkClosure false (Some (firstIndex v fm (app w0))), w1)))
      = (createCalls w0
         ++ [nth (firstIndex v fm (app w0)) fm []]
         ++ firstn k (skipn (S (firstIndex v fm (app w0))) fm))%list)
      by (rewrite H1, Hcalls, <- app_assoc; reflexivity).
    split; [exact G1|].
    split; [rewrite H2, Htried, <- app_assoc; reflexivity|].
    rewrite G1.
    specialize (Hlen (1 + k)).
    rewrite (firstn_plus 1 k) in Hlen.
    rewrite (skipn_nth_cons fm (firstIndex v fm (app w0)) []) in Hlen
      by exact Hlt.
    exact Hlen.
Qed.

(** ** Engine and error *)

(** While an attempt is awaited there is neither an engine nor an error,
    and an engine is never held together with an error: kept by every
    loader event.  An engine that appears comes from the event. *)
Lemma step_engine_error v fm ev c w :
  (awaiting c <> None -> error (app w) = None /\ engine (app w) = None) ->
  (engine (app w) <> None -> error (app w) = None) ->
  (awaiting (fst (stepOf v fm ev (c, w))) <> None ->
   error (app (snd (stepOf v fm ev (c, w)))) = None
   /\ engine (app (snd (stepOf v fm ev (c, w)))) = None)
  /\ (engine (app (snd (stepOf v fm ev (c, w)))) <> None ->
      error (app (snd (stepOf v fm ev (c, w)))) = None)
  /\ (forall e, engine (app (snd (stepOf v fm ev (c, w)))) = Some e ->
        engine (app w) = Some e \/ ev = Resolved e).
Proof.
  intros P1 P2.
  assert (Hsame : forall c' w',
    stepOf v fm ev (c, w) = (c', w') ->
    error (app w') = error (app w) -> engine (app w') = engine (app w) ->
    (awaiting c' = awaiting c \/ awaiting c' = None) ->
    (awaiting (fst (stepOf v fm ev (c, w))) <> None ->
     error (app (snd (stepOf v fm ev (c, w)))) = None
     /\ engine (app (snd (stepOf v fm ev (c, w)))) = None)
    /\ (engine (app (snd (stepOf v fm ev (c, w)))) <> None ->
        error (app (snd (stepOf v fm ev (c, w)))) = None)
    /\ (forall e, engine (app (snd (stepOf v fm ev (c, w)))) = Some e ->
          engine (app w) = Some e \/ ev = Resolved e)).
  { intros c' w' -> He Hg Ha; cbn [fst snd]; rewrite He, Hg.
    split; [|split; [exact P2|intros e H; now left]].
    destruct Ha as [-> | ->]; [exact P1|congruence]. }
  destruct ev as [p|created|err|].
  - destruct (initProgressCallback_frame v c p (app w))
      as (_ & _ & _ & Hg & _ & _ & He & _).
    refine (Hsame _ _ (step_progress v fm p c w) _ _ _);
      [exact He|exact Hg|left; reflexivity].
  - destruct (awaiting c) as [i|] eqn:Ha.
    + destruct (cancelled c) eqn:Hc.
      * refine (Hsame _ _
          (step_settled_cancelled v fm _ c w i Hc Ha
             (or_introl (ex_intro _ created eq_refl))) _ _ _);
          [reflexivity|reflexivity|right; reflexivity].
      * rewrite (step_resolved_live v fm c w i created Hc Ha).
        cbn [fst snd awaiting app onApp error engine setDownloadProgress
             setIsDownloading setEngine].
        destruct P1 as [He _]; [discriminate|].
        split; [congruence|].
        split; [intros _; exact He|].
        intros e H; right; congruence.
    + refine (Hsame _ _
        (step_settled_idle v fm _ c w Ha
           (or_introl (ex_intro _ created eq_refl))) _ _ _);
        [reflexivity|reflexivity|left; exact Ha].
  - destruct (awaiting c) as [i|] eqn:Ha.
    + destruct (cancelled c) eqn:Hc.
      * refine (Hsame _ _
          (step_settled_cancelled v fm _ c w i Hc Ha
             (or_intror (ex_intro _ err eq_refl))) _ _ _);
          [reflexivity|reflexivity|right; reflexivity].
      * destruct P1 as [_ Hg0]; [discriminate|].
        rewrite (step_rejected_live v fm c w i err Hc Ha); cbv zeta.
        set (w1 := onApp (setError (Some (messageOrSelf err))) w).
        assert (Hg1 : engine (app w1) = None) by exact Hg0.
        destruct (resourceExhaustion (messageOrSelf err)).
        -- destruct (Nat.lt_ge_cases (i + 1) (List.length fm)) as [Hlt|Hge].
           ++ destruct (loadModelOf_started v fm c (i + 1) w1 Hc Hlt)
                as (_ & _ & _ & Herr & _ & _ & Heng & _).
              cbv zeta in Herr, Heng; cbn [fst snd].
              rewrite Herr, Heng, Hg1.
              repeat split; auto; intros; congruence.
           ++ rewrite (loadModelOf_exhausted v fm c (i + 1) w1 Hge).
              cbn [fst snd awaiting]; rewrite Hg1.
              repeat split; intros; congruence.
        -- cbn [fst snd awaiting app onApp engine setIsDownloading].
           rewrite Hg1.
           repeat split; intros; congruence.
    + refine (Hsame _ _
        (step_settled_idle v fm _ c w Ha
           (or_intror (ex_intro _ err eq_refl))) _ _ _);
        [reflexivity|reflexivity|left; exact Ha].
  - refine (Hsame _ _ (step_cleanup v fm c w) _ _ _);
      [reflexivity|reflexivity|left; reflexivity].
Qed.

Lemma run_engine_error v fm evs : forall c w,
  (awaiting c <> None -> error (app w) = None /\ engine (app w) = None) ->
  (engine (app w) <> None -> error (app w) = None) ->
  (awaiting (fst (run (stepOf v fm) evs (c, w))) <> None ->
   engine (app (snd (run (stepOf v fm) evs (c, w)))) = None)
  /\ (engine (app (snd (run (stepOf v fm) evs (c, w)))) <> None ->
      error (app (snd (run (stepOf v fm) evs (c, w)))) = None)
  /\ (forall e, engine (app (snd (run (stepOf v fm) evs (c, w)))) = Some e ->
        engine (app w) = Some e \/ In (Resolved e) evs).
Proof.
  induction evs as [|ev evs IH]; intros c w P1 P2.
  - cbn; split; [intros H; now apply P1|].
    split; [exact P2|intros e H; now left].
  - rewrite run_cons.
    destruct (step_engine_error v fm ev c w P1 P2) as (Q1 & Q2 & Q3).
    destruct (stepOf v fm ev (c, w)) as [c1 w1]; cbn [fst snd] in *.
    destruct (IH c1 w1 Q1 Q2) as (R1 & R2 & R3).
    split; [exact R1|]. split; [exact R2|].
    intros e H; destruct (R3 e H) as [H1|H1].
    + destruct (Q3 e H1) as [H2| ->]; [now left|right; now left].
    + right; now right.
Qed.

(** X2.  From a start of the effect with no engine held, whatever loader
    events follow: an engine held afterwards is the one a fulfilment among
    those events delivered; then [error] is [null] and the load awaits
    nothing.  So a stored engine and a load error never occur together,
    and without a fulfilment no engine appears. *)
Theorem engine_comes_from_a_fulfilment v fm evs w0 e :
  engine (app w0) = None ->
  engine (app (snd (run (stepOf v fm) evs (useEffectOf v fm w0)))) = Some e ->
  In (Resolved e) evs
  /\ error (app (snd (run (stepOf v fm) evs (useEffectOf v fm w0)))) = None
  /\ awaiting (fst (run (stepOf v fm) evs (useEffectOf v fm w0))) = None.
Proof.
  intros He0 He.
  assert (Hinit :
    (awaiting (fst (useEffectOf v fm w0)) <> None ->
     error (app (snd (useEffectOf v fm w0))) = None
     /\ engine (app (snd (useEffectOf v fm w0))) = None)
    /\ engine (app (snd (useEffectOf v fm w0))) = None).
  { destruct (useEffectOf_cases v fm w0)
      as [-> | (_ & _ & _ & _ & Herr & Heng)]; cbn [fst snd awaiting].
    - split; [congruence|exact He0].
    - rewrite Heng, He0; auto. }
  destruct Hinit as [P1 Hg].
  destruct (useEffectOf v fm w0) as [c1 w1]; cbn [fst snd] in *.
  destruct (run_engine_error v fm evs c1 w1 P1) as (R1 & R2 & R3);
    [congruence|].
  destruct (R3 e He) as [H|H]; [congruence|].
  split; [exact H|].
  split; [apply R2; congruence|].
  destruct (awaiting (fst (run (stepOf v fm) evs (c1, w1)))) eqn:Ha;
    [|reflexivity].
  rewrite R1 in He; [discriminate|congruence].
Qed.

Lemma engine_comes_from_a_fulfilment_witness :
  let fm := [js "A"; js "B"; js "C"] in
  let evs := [Rejected deviceLost; Progress (report 0.5%float);
              Resolved (EngineHandle 2); Rejected invalidFormat] in
  let cw := run (stepOf App_jsx fm) evs
              (useEffectOf App_jsx fm (mounted App_jsx)) in
  engine (app (snd cw)) = Some (EngineHandle 2)
  /\ error (app (snd cw)) = None
  /\ awaiting (fst cw) = None.
Proof.
  intros fm evs cw.
  assert (He : engine (app (snd cw)) = Some (EngineHandle 2))
    by (vm_compute; reflexivity).
  destruct (engine_comes_from_a_fulfilment App_jsx fm evs (mounted App_jsx)
              (EngineHandle 2) eq_refl He) as (_ & H2 & H3).
  split; [exact He|]. split; [exact H2|exact H3].
Defined.

(** ** What the loader leaves alone, and the model name *)

Ltac crush_step :=
  unfold stepOf, useEffectOf, AppV1.step, AppV2.step, AppV1.useEffect,
    AppV2.useEffect, AppV1.initProgressCallback, AppV2.initProgressCallback,
    AppV1.loadModel_fulfilled, AppV2.loadModel_fulfilled,
    AppV1.loadModel_rejected, AppV2.loadModel_rejected,
    AppV1.loadModel, AppV2.loadModel, onApp, CreateMLCEngine;
  repeat first
    [ progress cbn [app createCalls fst snd cancelled awaiting messages input
        loading reloadToken modelName triedModelsRef engine error
        setModelName triedModelsRef_push setIsDownloading
        setDownloadProgress setError setEngine setProgressMessage]
    | match goal with
      | |- context [cancelled ?c] => destruct (cancelled c) eqn:?
      | |- context [awaiting ?c] => destruct (awaiting c) eqn:?
      | |- context [resourceExhaustion ?m] =>
          destruct (resourceExhaustion m) eqn:?
      | |- context [(?x <=? ?y)%nat] => destruct (x <=? y)%nat eqn:?
      | |- context [match engine ?a with _ => _ end] =>
          destruct (engine a) eqn:?
      | |- context [match text ?p with _ => _ end] => destruct (text p) eqn:?
      | |- context [if truthy ?t then _ else _] => destruct (truthy t) eqn:?
      end ].

Lemma step_frame v fm ev c w :
  messages (app (snd (stepOf v fm ev (c, w)))) = messages (app w)
  /\ input (app (snd (stepOf v fm ev (c, w)))) = input (app w)
  /\ loading (app (snd (stepOf v fm ev (c, w)))) = loading (app w)
  /\ reloadToken (app (snd (stepOf v fm ev (c, w)))) = reloadToken (app w)
  /\ (v = Message_jsx ->
      modelName (app (snd (stepOf v fm ev (c, w)))) = modelName (app w)).
Proof.
  destruct w as [a calls], v, ev; crush_step; repeat split;
    try reflexivity; try discriminate; intros _; reflexivity.
Qed.

Lemma useEffect_frame v fm w :
  messages (app (snd (useEffectOf v fm w))) = messages (app w)
  /\ input (app (snd (useEffectOf v fm w))) = input (app w)
  /\ loading (app (snd (useEffectOf v fm w))) = loading (app w)
  /\ reloadToken (app (snd (useEffectOf v fm w))) = reloadToken (app w)
  /\ (v = Message_jsx ->
      modelName (app (snd (useEffectOf v fm w))) = modelName (app w)).
Proof.
  destruct w as [a calls], v; crush_step; repeat split;
    try reflexivity; try discriminate; intros _; reflexivity.
Qed.

(** X3.  Loading never touches the chat: whatever events reach whatever
    run of the effect, and when the effect itself runs, [messages],
    [input], [loading] and [reloadToken] are as before.  In the second
    version [modelName] is not written either: after a fallback the
    selector still names the model that was selected, not the one that
    was loaded. *)
Theorem loader_leaves_chat_alone v fm evs c w :
  let a' := app (snd (run (stepOf v fm) evs (c, w))) in
  let a0 := app (snd (useEffectOf v fm w)) in
  (messages a' = messages (app w) /\ input a' = input (app w)
   /\ loading a' = loading (app w) /\ reloadToken a' = reloadToken (app w)
   /\ (v = Message_jsx -> modelName a' = modelName (app w)))
  /\ (messages a0 = messages (app w) /\ input a0 = input (app w)
      /\ loading a0 = loading (app w) /\ reloadToken a0 = reloadToken (app w)
      /\ (v = Message_jsx -> modelName a0 = modelName (app w))).
Proof.
  cbv zeta; split; [|apply useEffect_frame].
  revert c w; induction evs as [|ev evs IH]; intros c w.
  - cbn; repeat split.
  - rewrite run_cons.
    destruct (step_frame v fm ev c w) as (H1 & H2 & H3 & H4 & H5).
    destruct (stepOf v fm ev (c, w)) as [c1 w1]; cbn [fst snd] in *.
    destruct (IH c1 w1) as (G1 & G2 & G3 & G4 & G5).
    rewrite G1, G2, G3, G4.
    repeat split; auto.
    intros Hv; rewrite (G5 Hv); auto.
Qed.

Lemma step_modelName_V1 fm ev c w d :
  modelName (app w) = last (createCalls w) d ->
  modelName (app w) = last (triedModelsRef (app w)) d ->
  modelName (app (snd (AppV1.step fm ev (c, w))))
  = last (createCalls (snd (AppV1.step fm ev (c, w)))) d
  /\ modelName (app (snd (AppV1.step fm ev (c, w))))
     = last (triedModelsRef (app (snd (AppV1.step fm ev (c, w))))) d.
Proof.
  intros H1 H2.
  destruct w as [a calls], ev; cbn [app createCalls] in H1, H2;
    crush_step; rewrite ?last_last; auto.
Qed.

(** X4.  In [src/App.jsx] the model name always follows the fallback: once
    the effect has started on a non-empty list, whatever loader events
    follow, [modelName] is the model of the latest factory call and the
    last entry of the audit list. *)
Theorem modelName_is_latest_attempt fm evs w0 :
  fm <> [] ->
  let cw := run (AppV1.step fm) evs (AppV1.useEffect fm w0) in
  modelName (app (snd cw)) = last (createCalls (snd cw)) []
  /\ modelName (app (snd cw)) = last (triedModelsRef (app (snd cw))) [].
Proof.
  intros Hne; cbv zeta.
  assert (Hinit :
    modelName (app (snd (AppV1.useEffect fm w0)))
    = last (createCalls (snd (AppV1.useEffect fm w0))) []
    /\ modelName (app (snd (AppV1.useEffect fm w0)))
       = last (triedModelsRef (app (snd (AppV1.useEffect fm w0)))) []).
  { destruct fm as [|m fm']; [contradiction|].
    destruct w0 as [a calls]; cbn; now rewrite !last_last. }
  destruct (AppV1.useEffect fm w0) as [c1 w1]; cbn [fst snd] in Hinit.
  destruct Hinit as [I1 I2].
  revert c1 w1 I1 I2; induction evs as [|ev evs IH]; intros c1 w1 I1 I2.
  - cbn; auto.
  - rewrite run_cons.
    destruct (step_modelName_V1 fm ev c1 w1 [] I1 I2) as [J1 J2].
    destruct (AppV1.step fm ev (c1, w1)) as [c2 w2]; cbn [fst snd] in *.
    now apply IH.
Qed.

Lemma modelName_is_latest_attempt_witness :
  let fm := [js "A"; js "B"; js "C"] in
  let cw := run (AppV1.step fm)
              [Rejected deviceLost; Progress (report 0.5%float)]
              (AppV1.useEffect fm (mounted App_jsx)) in
  modelName (app (snd cw)) = js "B"
  /\ createCalls (snd cw) = [js "A"; js "B"].
Proof.
  intros fm cw.
  destruct (modelName_is_latest_attempt fm
              [Rejected deviceLost; Progress (report 0.5%float)]
              (mounted App_jsx)) as [H1 _].
  - discriminate.
  - cbv zeta in H1; fold cw in H1.
    assert (Hc : createCalls (snd cw) = [js "A"; js "B"])
      by (vm_compute; reflexivity).
    split; [|exact Hc].
    rewrite H1, Hc; reflexivity.
Defined.

(** ** The selected model *)

Lemma indexOf_absent x l :
  AppV2.indexOf x l = (-1)%Z <-> ~ In x l.
Proof.
  induction l as [|y l IH]; cbn [AppV2.indexOf In]; [tauto|].
  destruct (strictEq y x) eqn:E.
  - apply strictEq_eq in E; split; [discriminate|tauto].
  - assert (y <> x) by (intros ->; rewrite strictEq_refl in E; discriminate).
    destruct (indexOf_range x l) as [Hr|Hr].
    + rewrite Hr; cbn; split; [|reflexivity].
      intros _ [Hy|Hin]; [contradiction|]; now apply IH.
    + destruct (AppV2.indexOf x l =? -1)%Z eqn:E1; [lia|].
      split; [lia|]. intros Hn; exfalso; apply Hn; right.
      destruct (in_dec (list_eq_dec N.eq_dec) x l) as [Hin|Hnin];
        [exact Hin|].
      apply IH in Hnin; lia.
Qed.

Lemma indexOf_first x l d :
  (0 <= AppV2.indexOf x l)%Z ->
  nth (Z.to_nat (AppV2.indexOf x l)) l d = x
  /\ forall j, j < Z.to_nat (AppV2.indexOf x l) -> nth j l d <> x.
Proof.
  induction l as [|y l IH]; cbn [AppV2.indexOf]; [lia|].
  destruct (strictEq y x) eqn:E.
  - intros _; apply strictEq_eq in E; cbn; split; [exact E|lia].
  - assert (Hyx : y <> x)
      by (intros ->; rewrite strictEq_refl in E; discriminate).
    destruct (AppV2.indexOf x l =? -1)%Z eqn:E1; [lia|].
    intros _.
    destruct (indexOf_range x l) as [Hr|Hr]; [lia|].
    destruct IH as [IH1 IH2]; [lia|].
    replace (Z.to_nat (AppV2.indexOf x l + 1))
      with (S (Z.to_nat (AppV2.indexOf x l))) by lia.
    cbn [nth]; split; [exact IH1|].
    intros [|j] Hj; [exact Hyx|apply IH2; lia].
Qed.

Lemma startIndex_selected fm a :
  (In (modelName a) fm ->
   nth (AppV2.startIndex fm a) fm [] = modelName a
   /\ forall j, j < AppV2.startIndex fm a -> nth j fm [] <> modelName a)
  /\ (~ In (modelName a) fm -> AppV2.startIndex fm a = 0).
Proof.
  unfold AppV2.startIndex; split.
  - intros Hin.
    destruct (indexOf_range (modelName a) fm) as [Hr|Hr].
    + apply indexOf_absent in Hr; contradiction.
    + destruct (AppV2.indexOf (modelName a) fm =? -1)%Z eqn:E; [lia|].
      cbn [negb]; apply indexOf_first; lia.
  - intros Hnin; apply indexOf_absent in Hnin; now rewrite Hnin.
Qed.

(** With no engine held and a non-empty list the effect does start an
    attempt, at the start index. *)
Lemma useEffectOf_started v fm w0 :
  fm <> [] -> engine (app w0) = None ->
  fst (useEffectOf v fm w0)
  = mkClosure false (Some (firstIndex v fm (app w0)))
  /\ createCalls (snd (useEffectOf v fm w0))
     = (createCalls w0 ++ [nth (firstIndex v fm (app w0)) fm []])%list
  /\ error (app (snd (useEffectOf v fm w0))) = None
  /\ engine (app (snd (useEffectOf v fm w0))) = None.
Proof.
  intros Hne He.
  pose proof (firstIndex_lt v fm (app w0) Hne) as Hlt.
  destruct (useEffectOf_cases v fm w0)
    as [E | (_ & Hc & Hcalls & _ & Herr & Heng)].
  - exfalso.
    pose proof (useEffectOf_unfold v fm w0 He) as U.
    rewrite E in U.
    destruct (loadModelOf_started v fm (mkClosure false None)
                _ w0 eq_refl Hlt) as (Hn & _).
    cbv zeta in Hn; inversion U as [[U1 U2]]; congruence.
  - rewrite Heng, He; auto.
Qed.

(** X5.  In the second version, with no engine held and a non-empty list,
    the effect makes exactly one factory call when it runs: for the
    selected model if the list has it, at its first position, and
    otherwise for the head of the list. *)
Theorem effect_starts_at_selected_model fm w0 :
  fm <> [] -> engine (app w0) = None ->
  let cw := AppV2.useEffect fm w0 in
  (In (modelName (app w0)) fm ->
   createCalls (snd cw) = (createCalls w0 ++ [modelName (app w0)])%list
   /\ forall j, awaiting (fst cw) = Some j ->
        nth j fm [] = modelName (app w0)
        /\ forall j', j' < j -> nth j' fm [] <> modelName (app w0))
  /\ (~ In (modelName (app w0)) fm ->
      createCalls (snd cw) = (createCalls w0 ++ [hd [] fm])%list
      /\ awaiting (fst cw) = Some 0).
Proof.
  intros Hne He; cbv zeta.
  pose proof (firstIndex_lt Message_jsx fm (app w0) Hne) as Hlt.
  destruct (useEffectOf_cases Message_jsx fm w0)
    as [E | (_ & Hc & Hcalls & _)].
  - exfalso.
    pose proof (useEffectOf_unfold Message_jsx fm w0 He) as U.
    rewrite E in U.
    destruct (loadModelOf_started Message_jsx fm (mkClosure false None)
                _ w0 eq_refl Hlt) as (Hn & _).
    cbv zeta in Hn; inversion U as [[U1 U2]]; congruence.
  - cbn [useEffectOf firstIndex] in Hc, Hcalls, Hlt.
    destruct (startIndex_selected fm (app w0)) as [S1 S2].
    split.
    + intros Hin; destruct (S1 Hin) as [Hnth Hfirst].
      rewrite Hcalls, Hnth; split; [reflexivity|].
      intros j Hj; rewrite Hc in Hj; cbn in Hj; inversion Hj; subst j.
      split; assumption.
    + intros Hnin; rewrite Hcalls, Hc, (S2 Hnin).
      destruct fm; [contradiction|]; split; reflexivity.
Qed.

Lemma effect_starts_at_selected_model_witness :
  let fm := AppV2.FALLBACK_MODELS in
  let w0 := onApp (setModelName (js "Llama-3.2-3B-Instruct-q4f16_1-MLC"))
              (mounted Message_jsx) in
  createCalls (snd (AppV2.useEffect fm w0))
  = [js "Llama-3.2-3B-Instruct-q4f16_1-MLC"].
Proof.
  intros fm w0.
  destruct (effect_starts_at_selected_model fm w0) as [H _].
  - discriminate.
  - reflexivity.
  - apply H; vm_compute; tauto.
Defined.

(** X6.  Choosing a listed model in the second version, unless it is the
    current one with an engine held: the engine is dropped, the transcript
    is replaced by the one notice, [reloadToken] goes up by one, the load
    in progress is cancelled, and the re-run effect makes exactly one
    factory call, for the chosen model, with error and progress reset.
    Choosing the current model while its engine is held changes
    nothing. *)
Theorem model_switch_restarts_loading fm uid1 newModel old a calls :
  In newModel fm ->
  newModel <> modelName a \/ engine a = None ->
  let a' := AppV2.handleModelChange uid1 newModel a in
  let r := AppV2.rerunEffect fm old (mkWorld a' calls) in
  cancelled (fst r) = true
  /\ cancelled (fst (snd r)) = false
  /\ createCalls (snd (snd r)) = (calls ++ [newModel])%list
  /\ (forall j, awaiting (fst (snd r)) = Some j -> nth j fm [] = newModel)
  /\ modelName (app (snd (snd r))) = newModel
  /\ engine (app (snd (snd r))) = None
  /\ error (app (snd (snd r))) = None
  /\ reloadToken (app (snd (snd r))) = reloadToken a + 1
  /\ messages (app (snd (snd r)))
     = [mkMessage uid1 system
          (js "Switched to " ++ newModel ++ js ". Initializing...")%list
          None]
  /\ (forall b, modelName b = newModel -> engine b <> None ->
        AppV2.handleModelChange uid1 newModel b = b).
Proof.
  intros Hin Hchg; cbv zeta.
  assert (Ha' : AppV2.handleModelChange uid1 newModel a
    = setReloadToken (fun t => t + 1)
        (setMessages
           (fun _ => [mkMessage uid1 system
              (js "Switched to " ++ newModel ++ js ". Initializing...")%list
              None])
           (setEngine None (setModelName newModel a)))).
  { unfold AppV2.handleModelChange.
    destruct Hchg as [Hne|He].
    - now rewrite (strictEq_neq newModel (modelName a) Hne).
    - rewrite He; now rewrite andb_false_r. }
  rewrite Ha'.
  set (a1 := setReloadToken _ _).
  assert (Hfm : fm <> []) by (destruct fm; [contradiction|discriminate]).
  destruct (useEffectOf_started Message_jsx fm (mkWorld a1 calls) Hfm eq_refl)
    as (Hc & Hcalls & Herr & Heng).
  destruct (startIndex_selected fm a1) as [Hsel _].
  destruct (Hsel Hin) as [Hnth _].
  destruct (useEffect_frame Message_jsx fm (mkWorld a1 calls))
    as (Hm & _ & _ & Hr & Hmn).
  cbn [useEffectOf firstIndex app createCalls] in *.
  unfold AppV2.rerunEffect; cbn [fst snd cancelled].
  rewrite Hc, Heng, Herr, Hr, Hm, (Hmn eq_refl), Hcalls, Hnth.
  cbn [cancelled awaiting].
  repeat split; auto.
  - intros j Hj; inversion Hj; subst j; exact Hnth.
  - intros b Hb Hbe; unfold AppV2.handleModelChange.
    rewrite Hb, strictEq_refl.
    destruct (engine b); [reflexivity|contradiction].
Qed.

Lemma model_switch_restarts_loading_witness :
  let fm := AppV2.FALLBACK_MODELS in
  let first := AppV2.useEffect fm (mounted Message_jsx) in
  let a' := AppV2.handleModelChange (js "n7c2w5de")
              (js "Llama-3.2-3B-Instruct-q4f16_1-MLC") (app (snd first)) in
  let r := AppV2.rerunEffect fm (fst first)
             (mkWorld a' (createCalls (snd first))) in
  cancelled (fst r) = true
  /\ createCalls (snd (snd r))
     = [js "Llama-3.2-1B-Instruct-q4f16_1-MLC";
        js "Llama-3.2-3B-Instruct-q4f16_1-MLC"].
Proof.
  intros fm first a' r.
  destruct (model_switch_restarts_loading fm (js "n7c2w5de")
              (js "Llama-3.2-3B-Instruct-q4f16_1-MLC") (fst first)
              (app (snd first)) (createCalls (snd first)))
    as (H1 & _ & H3 & _).
  - vm_compute; tauto.
  - left; vm_compute; discriminate.
  - split; [exact H1|exact H3].
Defined.

(** ** One generation at a time *)

Import Component.

Lemma blank_submit_returns userId placeholderId a :
  whitespaceOnly (input a) = true ->
  handleSubmit userId placeholderId a = (a, Returned).
Proof.
  intros Hws; unfold handleSubmit; now rewrite truthy_trim, Hws.
Qed.

Lemma busy_submit_returns userId placeholderId a :
  loading a = true -> handleSubmit userId placeholderId a = (a, Returned).
Proof.
  intros Hl; unfold handleSubmit; now rewrite Hl, orb_true_r.
Qed.

(** X7.  While a generation is in flight, whatever is typed, a further
    submit and a click on Clear both leave the state as it is, so the
    placeholder is still in the transcript when the engine settles.  With
    no generation in flight, Clear replaces the transcript by its one
    notice and writes nothing else. *)
Theorem in_flight_generation_blocks_submit_and_clear
    userId placeholderId a eng :
  whitespaceOnly (input a) = false -> loading a = false ->
  engine a = Some eng ->
  let a1 := fst (handleSubmit userId placeholderId a) in
  (forall typed u2 p2 uid1,
     handleSubmit u2 p2 (setInput typed a1) = (setInput typed a1, Returned)
     /\ clearChat uid1 (setInput typed a1) = setInput typed a1
     /\ In (mkMessage placeholderId system (js "Thinking...") (Some true))
           (messages (setInput typed a1)))
  /\ (forall uid1 b, loading b = false ->
        clearChat uid1 b
        = setMessages
            (fun _ => [mkMessage uid1 system
                         (js "Chat cleared. Ask something else!") None]) b
        /\ List.length (messages (clearChat uid1 b)) = 1).
Proof.
  intros Hws Hl He; cbv zeta.
  rewrite (handleSubmit_accepted userId placeholderId a Hws Hl); cbv zeta.
  unfold generateReply; rewrite He; cbn [fst].
  split.
  - intros typed u2 p2 uid1.
    split; [apply busy_submit_returns; reflexivity|].
    split; [reflexivity|].
    cbn; apply in_or_app; right; right; left; reflexivity.
  - intros uid1 b Hb; unfold clearChat; rewrite Hb; split; reflexivity.
Qed.

Lemma in_flight_generation_blocks_submit_and_clear_witness :
  let a := chatting (js "hi") (Some (EngineHandle 1)) in
  let a1 := fst (handleSubmit (js "u0000001") (js "p0000002") a) in
  handleSubmit (js "u0000003") (js "p0000004") (setInput (js "again") a1)
  = (setInput (js "again") a1, Returned)
  /\ clearChat (js "c0000005") (setInput (js "again") a1)
     = setInput (js "again") a1.
Proof.
  intros a a1.
  destruct (in_flight_generation_blocks_submit_and_clear
              (js "u0000001") (js "p0000002") a (EngineHandle 1))
    as [H _]; try reflexivity.
  destruct (H (js "again") (js "u0000003") (js "p0000004") (js "c0000005"))
    as (H1 & H2 & _).
  split; [exact H1|exact H2].
Defined.

(** ** The session invariant *)

Lemma isPending_resolved pid reply m x :
  In x (resolvePlaceholder pid reply m) ->
  Session.isPending x = true ->
  In x m /\ id x <> pid.
Proof.
  unfold resolvePlaceholder; intros Hin Hp.
  apply in_map_iff in Hin as (y & Hy & Hin).
  destruct (strictEq (id y) pid) eqn:E; subst x.
  - discriminate.
  - split; [exact Hin|].
    intros Heq; rewrite Heq, strictEq_refl in E; discriminate.
Qed.

Lemma sessionInvariant_same s s' :
  messages (app (Session.world s')) = messages (app (Session.world s)) ->
  loading (app (Session.world s')) = loading (app (Session.world s)) ->
  Session.inFlight s' = Session.inFlight s ->
  sessionInvariant s -> sessionInvariant s'.
Proof.
  unfold sessionInvariant; intros -> -> ->; auto.
Qed.

Lemma sessionInvariant_idle s :
  sessionInvariant s -> loading (app (Session.world s)) = false ->
  Session.inFlight s = []
  /\ forall m, In m (messages (app (Session.world s))) ->
               Session.isPending m = false.
Proof.
  intros (_ & _ & H) Hl; exact (H Hl).
Qed.

Lemma step_sessionInvariant v fm e s :
  sessionInvariant s -> sessionInvariant (Session.step v fm e s).
Proof.
  intros Hinv; destruct s as [[a calls] fl].
  destruct e as [value|userId pid|pid g|uid1|uid1 newModel| |c ev].
  - (* typing *)
    eapply sessionInvariant_same; [| | |exact Hinv]; reflexivity.
  - (* submit *)
    cbn [Session.step Session.world app].
    destruct (whitespaceOnly (input a)) eqn:Hws;
      [|destruct (loading a) eqn:Hl].
    + rewrite (blank_submit_returns userId pid a Hws).
      eapply sessionInvariant_same; [| | |exact Hinv]; reflexivity.
    + rewrite (busy_submit_returns userId pid a Hl).
      eapply sessionInvariant_same; [| | |exact Hinv]; reflexivity.
    + destruct (sessionInvariant_idle _ Hinv Hl) as [Hfl Hnone].
      cbn [Session.inFlight Session.world app] in Hfl, Hnone; subst fl.
      rewrite (handleSubmit_accepted userId pid a Hws Hl); cbv zeta.
      unfold generateReply, sessionInvariant.
      destruct (engine a) as [eng|];
        cbn [Session.world Session.inFlight app onApp messages loading
             handleSubmit_resume setLoading setInput setMessages].
      * split; [destruct (messages a); discriminate|].
        split; [|discriminate].
        intros q rest Hq; inversion Hq; subst q rest.
        split; [reflexivity|]. split; [reflexivity|].
        intros m Hin Hp.
        apply in_app_or in Hin as [Hin|[<-|[<-|[]]]];
          [rewrite (Hnone m Hin) in Hp; discriminate
          |discriminate|reflexivity].
      * split.
        { unfold resolvePlaceholder; destruct (messages a); discriminate. }
        split; [discriminate|].
        intros _; split; [reflexivity|].
        intros m Hin.
        destruct (Session.isPending m) eqn:Hp; [|reflexivity].
        destruct (isPending_resolved _ _ _ _ Hin Hp) as [Hin' Hid].
        apply in_app_or in Hin' as [Hin'|[<-|[<-|[]]]];
          [rewrite (Hnone m Hin') in Hp; discriminate
          |discriminate|cbn in Hid; contradiction].
  - (* the engine settles *)
    cbn [Session.step Session.world Session.inFlight].
    destruct (Session.awaited pid fl) eqn:Haw; [|exact Hinv].
    destruct Hinv as (Hne & H1 & H0).
    cbn [Session.world Session.inFlight app] in Hne, H0, H1.
    destruct fl as [|q rest]; [discriminate|].
    destruct (H1 q rest eq_refl) as (-> & Hl & Hpend).
    cbn [Session.awaited] in Haw; rewrite orb_false_r in Haw.
    apply strictEq_eq in Haw; subst q.
    cbn [Session.removeOne]; rewrite strictEq_refl.
    unfold sessionInvariant.
    cbn [Session.world Session.inFlight app onApp].
    unfold handleSubmit_settled.
    destruct (generateReply_settled g a) as [[reply a2]|] eqn:E.
    + destruct (generateReply_settled_frame g a reply a2 E) as (Hm2 & _).
      cbn [messages loading handleSubmit_resume setLoading setMessages].
      rewrite Hm2.
      split; [unfold resolvePlaceholder; destruct (messages a);
              [contradiction|discriminate]|].
      split; [discriminate|].
      intros _; split; [reflexivity|].
      intros m Hin.
      destruct (Session.isPending m) eqn:Hp; [|reflexivity].
      destruct (isPending_resolved _ _ _ _ Hin Hp) as [Hin' Hid].
      exfalso; apply Hid, Hpend; assumption.
    + split; [exact Hne|]. split; [discriminate|].
      intros Hl'; congruence.
  - (* Clear *)
    cbn [Session.step]; unfold onApp, clearChat.
    cbn [Session.world Session.inFlight app createCalls].
    destruct (loading a) eqn:Hl; [exact Hinv|].
    destruct (sessionInvariant_idle _ Hinv Hl) as [Hfl _].
    cbn [Session.inFlight] in Hfl; subst fl.
    unfold sessionInvariant;
      cbn [Session.world Session.inFlight app messages loading setMessages].
    split; [discriminate|]. split; [discriminate|].
    intros _; split; [reflexivity|].
    intros m [<-|[]]; reflexivity.
  - (* the model selector *)
    destruct v; [exact Hinv|].
    cbn [Session.step]; unfold onApp, AppV2.handleModelChange.
    cbn [Session.world Session.inFlight app createCalls].
    destruct (strictEq newModel (modelName a)
              && match engine a with Some _ => true | None => false end);
      [exact Hinv|].
    destruct Hinv as (Hne & H1 & H0).
    cbn [Session.world Session.inFlight app] in Hne, H0, H1.
    unfold sessionInvariant;
      cbn [Session.world Session.inFlight app messages loading setMessages
           setReloadToken setEngine setModelName].
    split; [discriminate|]. split.
    + intros q rest Hq; destruct (H1 q rest Hq) as (Hr & Hl & _).
      split; [exact Hr|]. split; [exact Hl|].
      intros m [<-|[]] Hp; discriminate.
    + intros Hl; destruct (H0 Hl) as [Hfl _]; split; [exact Hfl|].
      intros m [<-|[]]; reflexivity.
  - (* the effect runs *)
    destruct (useEffect_frame v fm (mkWorld a calls)) as (Hm & _ & Hl & _).
    eapply sessionInvariant_same; [| | |exact Hinv];
      [exact Hm|exact Hl|reflexivity].
  - (* a loader event *)
    destruct (step_frame v fm ev c (mkWorld a calls)) as (Hm & _ & Hl & _).
    eapply sessionInvariant_same; [| | |exact Hinv];
      [exact Hm|exact Hl|reflexivity].
Qed.

(** As long as no settlement is lost, [loading] goes back to [false] when
    the generation in flight settles. *)
Lemma step_loadingOnlyInFlight v fm e s :
  sessionInvariant s -> loadingOnlyInFlight s ->
  Session.handled e = true ->
  loadingOnlyInFlight (Session.step v fm e s).
Proof.
  intros Hinv Hidle He; destruct s as [[a calls] fl].
  unfold loadingOnlyInFlight in *.
  cbn [Session.world Session.inFlight app] in Hidle.
  destruct e as [value|userId pid|pid g|uid1|uid1 newModel| |c ev].
  - exact Hidle.
  - cbn [Session.step Session.world Session.inFlight app].
    destruct (whitespaceOnly (input a)) eqn:Hws;
      [|destruct (loading a) eqn:Hl].
    + now rewrite (blank_submit_returns userId pid a Hws).
    + rewrite (busy_submit_returns userId pid a Hl); cbn; intros H.
      specialize (Hidle H); discriminate.
    + rewrite (handleSubmit_accepted userId pid a Hws Hl); cbv zeta.
      unfold generateReply.
      destruct (engine a); cbn; [discriminate|reflexivity].
  - cbn [Session.step Session.world Session.inFlight].
    destruct (Session.awaited pid fl) eqn:Haw; [|exact Hidle].
    cbn [Session.handled] in He.
    cbn [Session.world Session.inFlight app onApp]; intros _.
    unfold handleSubmit_settled.
    destruct (generateReply_settled g a) as [[reply a2]|] eqn:E;
      [reflexivity|].
    destruct g as [content|err interpolates]; cbn in E, He;
      [discriminate|].
    destruct (interpolated err interpolates); discriminate.
  - cbn [Session.step]; unfold onApp, clearChat.
    cbn [Session.world Session.inFlight app createCalls].
    destruct (loading a) eqn:Hl; intros H;
      [specialize (Hidle H); discriminate|exact Hl].
  - destruct v; [exact Hidle|].
    cbn [Session.step]; unfold onApp, AppV2.handleModelChange.
    cbn [Session.world Session.inFlight app createCalls].
    destruct (strictEq newModel (modelName a)
              && match engine a with Some _ => true | None => false end);
      exact Hidle.
  - destruct (useEffect_frame v fm (mkWorld a calls)) as (_ & _ & Hl & _).
    cbn [Session.step Session.world Session.inFlight]; intros H.
    rewrite Hl; now apply Hidle.
  - destruct (step_frame v fm ev c (mkWorld a calls)) as (_ & _ & Hl & _).
    cbn [Session.step Session.world Session.inFlight]; intros H.
    rewrite Hl; now apply Hidle.
Qed.

Lemma runAll_sessionInvariant v fm evs : forall s,
  sessionInvariant s -> sessionInvariant (Session.runAll v fm evs s).
Proof.
  induction evs as [|e evs IH]; intros s Hinv; [exact Hinv|].
  apply (IH (Session.step v fm e s)), step_sessionInvariant, Hinv.
Qed.

Lemma runAll_loadingOnlyInFlight v fm evs : forall s,
  sessionInvariant s -> loadingOnlyInFlight s ->
  forallb Session.handled evs = true ->
  loadingOnlyInFlight (Session.runAll v fm evs s).
Proof.
  induction evs as [|e evs IH]; intros s Hinv Hidle Hall; [exact Hidle|].
  cbn [forallb] in Hall; apply andb_true_iff in Hall as [He Hall].
  apply (IH (Session.step v fm e s)); [| |exact Hall].
  - now apply step_sessionInvariant.
  - now apply step_loadingOnlyInFlight.
Qed.

(** X8.  Whatever the user and the loader do, in whatever order, at most
    one generation is in flight, and while one is in flight [loading] is
    [true].  As long as every settlement so far gave [generateReply] a
    reply, [loading] is [true] only then: exactly while a generation is in
    flight. *)
Theorem at_most_one_generation_in_flight v fm evs s :
  sessionInvariant s ->
  let s' := Session.runAll v fm evs s in
  List.length (Session.inFlight s') <= 1
  /\ (Session.inFlight s' <> [] -> loading (app (Session.world s')) = true)
  /\ (loadingOnlyInFlight s -> forallb Session.handled evs = true ->
      (loading (app (Session.world s')) = true
       <-> Session.inFlight s' <> [])).
Proof.
  intros Hinv; cbv zeta.
  destruct (runAll_sessionInvariant v fm evs s Hinv) as (_ & H1 & _).
  pose proof (runAll_loadingOnlyInFlight v fm evs s Hinv) as Hidle.
  unfold loadingOnlyInFlight in Hidle at 2.
  destruct (Session.inFlight (Session.runAll v fm evs s)) as [|pid rest].
  - split; [cbn; lia|]. split; [congruence|].
    intros H0 Hall; rewrite (Hidle H0 Hall eq_refl).
    split; [discriminate|congruence].
  - destruct (H1 pid rest eq_refl) as (-> & Hl & _); rewrite Hl.
    split; [cbn; lia|]. split; [reflexivity|].
    intros _ _; split; [discriminate|reflexivity].
Qed.

Lemma at_most_one_generation_in_flight_witness :
  let s := Session.mkState
             (mkWorld (chatting [] (Some (EngineHandle 1))) []) [] in
  let evs :=
    [ Session.Typed (js "hi");
      Session.Submitted (js "u0000001") (js "p0000002");
      Session.Typed (js "more");
      Session.Submitted (js "u0000003") (js "p0000004");
      Session.ClearClicked (js "c0000005") ] in
  let s' := Session.runAll Message_jsx AppV2.FALLBACK_MODELS evs s in
  Session.inFlight s' = [js "p0000002"]
  /\ List.length (Session.inFlight s') <= 1
  /\ loading (app (Session.world s')) = true.
Proof.
  intros s evs s'.
  destruct (at_most_one_generation_in_flight Message_jsx
              AppV2.FALLBACK_MODELS evs s) as (H1 & H2 & _).
  - split; [discriminate|]. split; [discriminate|].
    intros _; split; [reflexivity|]; intros m [<-|[]]; reflexivity.
  - split; [vm_compute; reflexivity|].
    split; [exact H1|].
    apply H2; vm_compute; discriminate.
Defined.

(** X9.  Whatever the user and the loader do, the transcript is never
    empty, an entry is pending only while [loading] is [true], and while a
    generation is in flight only an entry carrying the id of its
    placeholder can be pending.  As long as every settlement so far gave
    [generateReply] a reply, an entry is pending only while a generation
    is in flight: once nothing is in flight no entry is left pending. *)
Theorem pending_only_while_in_flight v fm evs s :
  sessionInvariant s ->
  let s' := Session.runAll v fm evs s in
  messages (app (Session.world s')) <> []
  /\ (forall m, In m (messages (app (Session.world s'))) ->
        Session.isPending m = true ->
        loading (app (Session.world s')) = true
        /\ (Session.inFlight s' <> [] -> Session.inFlight s' = [id m]))
  /\ (loadingOnlyInFlight s -> forallb Session.handled evs = true ->
      forall m, In m (messages (app (Session.world s'))) ->
        Session.isPending m = true -> Session.inFlight s' = [id m]).
Proof.
  intros Hinv; cbv zeta.
  destruct (runAll_sessionInvariant v fm evs s Hinv) as (Hne & H1 & H0).
  pose proof (runAll_loadingOnlyInFlight v fm evs s Hinv) as Hidle.
  unfold loadingOnlyInFlight in Hidle at 2.
  assert (Hpend : forall m,
    In m (messages (app (Session.world (Session.runAll v fm evs s)))) ->
    Session.isPending m = true ->
    loading (app (Session.world (Session.runAll v fm evs s))) = true
    /\ (Session.inFlight (Session.runAll v fm evs s) <> [] ->
        Session.inFlight (Session.runAll v fm evs s) = [id m])).
  { intros m Hin Hp; split.
    - destruct (loading (app (Session.world (Session.runAll v fm evs s))))
        eqn:Hl; [reflexivity|].
      destruct (H0 eq_refl) as [_ Hnone].
      rewrite (Hnone m Hin) in Hp; discriminate.
    - destruct (Session.inFlight (Session.runAll v fm evs s))
        as [|pid rest]; [congruence|].
      intros _; destruct (H1 pid rest eq_refl) as (-> & _ & Hid).
      now rewrite (Hid m Hin Hp). }
  split; [exact Hne|]. split; [exact Hpend|].
  intros Hstart Hall m Hin Hp.
  destruct (Hpend m Hin Hp) as [Hl Hfl].
  apply Hfl; intros Hnil.
  rewrite (Hidle Hstart Hall Hnil) in Hl; discriminate.
Qed.

Lemma pending_only_while_in_flight_witness :
  let s := Session.mkState
             (mkWorld (chatting [] (Some (EngineHandle 1))) []) [] in
  let evs :=
    [ Session.Typed (js "hi");
      Session.Submitted (js "u0000001") (js "p0000002");
      Session.Loader (mkClosure false None) (Progress (report 0.5%float));
      Session.Settled (js "p0000002") (Chat.Failed deviceLost true) ] in
  let s' := Session.runAll Message_jsx AppV2.FALLBACK_MODELS evs s in
  Session.inFlight s' = []
  /\ List.length (messages (app (Session.world s'))) = 3
  /\ forall m, In m (messages (app (Session.world s'))) ->
               Session.isPending m = false.
Proof.
  intros s evs s'.
  destruct (pending_only_while_in_flight Message_jsx
              AppV2.FALLBACK_MODELS evs s) as (_ & _ & H3).
  - split; [discriminate|]. split; [discriminate|].
    intros _; split; [reflexivity|]; intros m [<-|[]]; reflexivity.
  - assert (Hfl : Session.inFlight s' = []) by (vm_compute; reflexivity).
    split; [exact Hfl|].
    split; [vm_compute; reflexivity|].
    intros m Hin.
    destruct (Session.isPending m) eqn:Hp; [|reflexivity].
    assert (H : Session.inFlight s' = [id m]).
    { apply H3; [intros _; reflexivity|reflexivity|exact Hin|exact Hp]. }
    rewrite Hfl in H; discriminate.
Defined.

(** ** The submit button and the loading screen *)

Lemma rejected_terminal_fields v fm c w i err :
  cancelled c = false -> awaiting c = Some i ->
  resourceExhaustion (messageOrSelf err) = false ->
  error (app (snd (stepOf v fm (Rejected err) (c, w))))
  = Some (messageOrSelf err)
  /\ isDownloading (app (snd (stepOf v fm (Rejected err) (c, w)))) = false
  /\ engine (app (snd (stepOf v fm (Rejected err) (c, w)))) = engine (app w).
Proof.
  intros Hc Ha Hno.
  rewrite (step_rejected_live v fm c w i err Hc Ha); cbv zeta; rewrite Hno.
  repeat split.
Qed.

(** X10.  The [disabled] attribute of the submit button agrees with the
    handler.  In [src/App.jsx] the button is disabled exactly when
    [handleSubmit] would return without changing anything.  In the second
    version it is enabled exactly when [handleSubmit] goes on to ask the
    engine, with the trimmed input as prompt: through the button, the
    reply "Engine not initialized" cannot be produced there. *)
Theorem submit_button_agrees_with_handler userId placeholderId a :
  (submitDisabled App_jsx a = true
   <-> handleSubmit userId placeholderId a = (a, Returned))
  /\ (submitDisabled Message_jsx a = false
      <-> exists eng,
            snd (handleSubmit userId placeholderId a)
            = AwaitReply eng (trim (input a)) placeholderId).
Proof.
  unfold submitDisabled, hasEngine; rewrite truthy_trim, negb_involutive.
  destruct (whitespaceOnly (input a)) eqn:Hws.
  - rewrite (blank_submit_returns userId placeholderId a Hws); cbn.
    split; [tauto|].
    split; [discriminate|intros [eng H]; discriminate].
  - destruct (loading a) eqn:Hl.
    + rewrite (busy_submit_returns userId placeholderId a Hl); cbn.
      split; [tauto|].
      split; [discriminate|intros [eng H]; discriminate].
    + rewrite (handleSubmit_accepted userId placeholderId a Hws Hl).
      cbv zeta; unfold generateReply; cbn [orb].
      destruct (engine a) as [eng|] eqn:He; cbn [negb snd].
      * split.
        -- split; [discriminate|].
           intros H; apply (f_equal (fun r => loading (fst r))) in H.
           cbn in H; congruence.
        -- split; [intros _; now exists eng|reflexivity].
      * split.
        -- split; [discriminate|].
           intros H; apply (f_equal (fun r => input (fst r))) in H.
           cbn in H; rewrite <- H in Hws; discriminate.
        -- split; [discriminate|intros [eng H]; discriminate].
Qed.

(** X11.  After a rejection that ends a live load with no engine held
    (an error the heuristic does not take for resource exhaustion), the
    second version keeps showing the loading screen.  [src/App.jsx] shows
    it exactly when the stored error text is not the empty string: with an
    empty text it renders the chat, although no engine is held. *)
Theorem loading_screen_after_terminal_error v fm c w i err :
  cancelled c = false -> awaiting c = Some i ->
  engine (app w) = None ->
  resourceExhaustion (messageOrSelf err) = false ->
  showsLoadingScreen v (app (snd (stepOf v fm (Rejected err) (c, w))))
  = match v with
    | App_jsx => truthy (messageOrSelf err)
    | Message_jsx => true
    end.
Proof.
  intros Hc Ha He Hno.
  destruct (rejected_terminal_fields v fm c w i err Hc Ha Hno)
    as (H1 & H2 & H3).
  unfold showsLoadingScreen, hasEngine, errorTruthy.
  rewrite H1, H2, H3, He; destruct v; reflexivity.
Qed.

Lemma loading_screen_after_terminal_error_witness :
  let fm := [js "A"; js "B"] in
  let cw := AppV1.useEffect fm (mounted App_jsx) in
  let blank := mkThrown None [] in
  showsLoadingScreen App_jsx
    (app (snd (stepOf App_jsx fm (Rejected invalidFormat) cw))) = true
  /\ showsLoadingScreen App_jsx
       (app (snd (stepOf App_jsx fm (Rejected blank) cw))) = false
  /\ engine (app (snd (stepOf App_jsx fm (Rejected blank) cw))) = None.
Proof.
  intros fm cw blank.
  split; [|split].
  - apply (loading_screen_after_terminal_error App_jsx fm (fst cw) (snd cw)
             0 invalidFormat); reflexivity.
  - apply (loading_screen_after_terminal_error App_jsx fm (fst cw) (snd cw)
             0 blank); reflexivity.
  - reflexivity.
Defined.

(** ** The heuristic, the trimmed text and the reply *)

Lemma matchesAt_iff pat : forall s,
  matchesAt pat s = true
  <-> exists found after,
        s = (found ++ after)%list /\ foldCase found = foldCase pat.
Proof.
  induction pat as [|p pat IH]; intros s.
  - cbn; split; [intros _; exists [], s; split; reflexivity|reflexivity].
  - destruct s as [|c s]; cbn [matchesAt].
    + split; [discriminate|].
      intros (found & after & Hs & Hf).
      destruct found; [discriminate|discriminate].
    + rewrite andb_true_iff, N.eqb_eq, IH; split.
      * intros (Hc & found & after & -> & Hf).
        exists (c :: found), after; split; [reflexivity|].
        cbn [foldCase map]; f_equal; [now symmetry|exact Hf].
      * intros (found & after & Hs & Hf).
        destruct found as [|x found]; [discriminate|].
        cbn [foldCase map] in Hf; inversion Hf as [[Hx Hrest]].
        cbn in Hs; inversion Hs; subst c s.
        split; [now symmetry|]. now exists found, after.
Qed.

Lemma searchIgnoreCase_iff pat s :
  searchIgnoreCase pat s = true <-> containsIgnoringCase pat s.
Proof.
  unfold containsIgnoringCase; induction s as [|c s IH].
  - cbn [searchIgnoreCase]; rewrite orb_false_r, matchesAt_iff; split.
    + intros (found & after & Hs & Hf); now exists [], found, after.
    + intros (before & found & after & Hs & Hf).
      destruct before; [|discriminate].
      now exists found, after.
  - cbn [searchIgnoreCase]; rewrite orb_true_iff, IH, matchesAt_iff; split.
    + intros [(found & after & Hs & Hf)|(before & found & after & Hs & Hf)].
      * now exists [], found, after.
      * exists (c :: before), found, after; rewrite Hs; now split.
    + intros (before & found & after & Hs & Hf).
      destruct before as [|b before].
      * left; now exists found, after.
      * right; inversion Hs; now exists before, found, after.
Qed.

(** X12.  The fallback heuristic fires exactly on the messages that
    contain, somewhere and in any ASCII casing, one of the three phrases
    "device lost", "insufficient memory", "device was lost". *)
Theorem resourceExhaustion_iff_phrase message :
  resourceExhaustion message = true
  <-> containsIgnoringCase (js "device lost") message
      \/ containsIgnoringCase (js "insufficient memory") message
      \/ containsIgnoringCase (js "Device was lost") message.
Proof.
  unfold resourceExhaustion.
  now rewrite !orb_true_iff, !searchIgnoreCase_iff, or_assoc.
Qed.

Lemma trimStart_split s :
  exists ws, s = (ws ++ trimStart s)%list /\ whitespaceOnly ws = true.
Proof.
  induction s as [|c s (ws & Hs & Hws)]; cbn [trimStart].
  - now exists [].
  - destruct (isWhiteSpace c) eqn:E.
    + exists (c :: ws); unfold whitespaceOnly in *; cbn [forallb List.app].
      rewrite E, Hws; split; [now f_equal|reflexivity].
    + now exists [].
Qed.

Lemma trimStart_head s :
  match trimStart s with
  | [] => True
  | c :: _ => isWhiteSpace c = false
  end.
Proof.
  induction s as [|c s IH]; cbn [trimStart]; [exact I|].
  destruct (isWhiteSpace c) eqn:E; [exact IH|exact E].
Qed.

(** [trim] cuts white space off both ends and nothing else. *)
Lemma trim_split s :
  exists before after,
    s = (before ++ trim s ++ after)%list
    /\ whitespaceOnly before = true /\ whitespaceOnly after = true
    /\ (trim s <> [] ->
        isWhiteSpace (hd 0%N (trim s)) = false
        /\ isWhiteSpace (last (trim s) 0%N) = false).
Proof.
  unfold trim, trimEnd.
  destruct (trimStart_split s) as (before & Hs & Hb).
  destruct (trimStart_split (rev (trimStart s))) as (ws & Hr & Hw).
  exists before, (rev ws).
  assert (Ht : trimStart s
               = (rev (trimStart (rev (trimStart s))) ++ rev ws)%list).
  { rewrite <- rev_app_distr, <- Hr; now rewrite rev_involutive. }
  split; [now rewrite <- Ht|].
  split; [exact Hb|]. split; [now rewrite whitespaceOnly_rev|].
  intros Hne.
  pose proof (trimStart_head (rev (trimStart s))) as Hlast.
  pose proof (trimStart_head s) as Hhead.
  destruct (trimStart (rev (trimStart s))) as [|c t] eqn:E;
    [contradiction|].
  split.
  - rewrite Ht in Hhead; cbn [rev] in *.
    destruct (rev t) as [|x t']; cbn in *; exact Hhead.
  - cbn [rev]; now rewrite last_last.
Qed.

(** X13.  An accepted submit stores as the user entry, and sends to the
    engine as the only prompt, the input without the white space at its
    two ends and otherwise unchanged: a non-empty text that neither
    starts nor ends with a white-space code unit. *)
Theorem submitted_text_is_trimmed userId placeholderId a eng :
  whitespaceOnly (input a) = false -> loading a = false ->
  engine a = Some eng ->
  exists value before after,
    snd (handleSubmit userId placeholderId a)
    = AwaitReply eng value placeholderId
    /\ In (mkMessage userId user value None)
          (messages (fst (handleSubmit userId placeholderId a)))
    /\ input a = (before ++ value ++ after)%list
    /\ whitespaceOnly before = true /\ whitespaceOnly after = true
    /\ value <> []
    /\ isWhiteSpace (hd 0%N value) = false
    /\ isWhiteSpace (last value 0%N) = false.
Proof.
  intros Hws Hl He.
  destruct (trim_split (input a)) as (before & after & Hs & Hb & Ha & Hends).
  assert (Hne : trim (input a) <> [])
    by (intros H; apply trim_nil_iff in H; congruence).
  destruct (Hends Hne) as [Hh Hlast].
  exists (trim (input a)), before, after.
  rewrite (handleSubmit_accepted userId placeholderId a Hws Hl); cbv zeta.
  unfold generateReply; rewrite He; cbn [fst snd].
  split; [reflexivity|].
  split; [cbn; apply in_or_app; right; left; reflexivity|].
  auto 8.
Qed.

Lemma submitted_text_is_trimmed_witness :
  exists value before after,
    snd (handleSubmit (js "u0000001") (js "p0000002")
           (chatting (js "  hi there ") (Some (EngineHandle 1))))
    = AwaitReply (EngineHandle 1) value (js "p0000002")
    /\ js "  hi there " = (before ++ value ++ after)%list
    /\ value <> [].
Proof.
  destruct (submitted_text_is_trimmed (js "u0000001") (js "p0000002")
              (chatting (js "  hi there ") (Some (EngineHandle 1)))
              (EngineHandle 1))
    as (value & before & after & H1 & _ & H3 & _ & _ & H6 & _);
    try reflexivity.
  exists value, before, after; split; [exact H1|]; split; [exact H3|exact H6].
Defined.

(** X14.  A reply is never blank: whenever [generateReply] returns its
    reply (a text, an empty or missing text, a failure it can print),
    every entry carrying the placeholder's id ends up with a non-empty
    content and with [pending] false, and so does the placeholder of a
    submit made with no engine held. *)
Theorem reply_is_never_blank placeholderId a :
  (forall g m,
     yieldsReply g = true ->
     In m (messages (handleSubmit_settled placeholderId g a)) ->
     id m = placeholderId ->
     content m <> [] /\ pending m = Some false)
  /\ (forall userId m,
        whitespaceOnly (input a) = false -> loading a = false ->
        engine a = None ->
        In m (messages (fst (handleSubmit userId placeholderId a))) ->
        id m = placeholderId ->
        content m <> [] /\ pending m = Some false).
Proof.
  assert (Hres : forall reply l m,
    reply <> [] ->
    In m (resolvePlaceholder placeholderId reply l) ->
    id m = placeholderId -> content m <> [] /\ pending m = Some false).
  { intros reply l m Hr Hin Hid.
    unfold resolvePlaceholder in Hin; apply in_map_iff in Hin
      as (x & Hx & _).
    destruct (strictEq (id x) placeholderId) eqn:E; subst m.
    - split; [exact Hr|reflexivity].
    - apply strictEq_eq in Hid; congruence. }
  split.
  - intros g m Hy Hin Hid.
    unfold handleSubmit_settled in Hin.
    destruct (generateReply_settled g a) as [[reply a2]|] eqn:E.
    + apply (Hres reply (messages a2) m); [|exact Hin|exact Hid].
      destruct g as [[t|]|err interpolates]; cbn in E.
      * inversion E; subst; destruct (truthy t) eqn:Ht;
          [destruct t; [discriminate|discriminate]|discriminate].
      * inversion E; discriminate.
      * destruct (interpolated err interpolates); [|discriminate].
        inversion E; discriminate.
    + destruct g as [content|err interpolates]; cbn in E, Hy;
        [discriminate|].
      destruct (interpolated err interpolates); discriminate.
  - intros userId m Hws Hl He Hin Hid.
    rewrite (handleSubmit_accepted userId placeholderId a Hws Hl) in Hin.
    cbv zeta in Hin; unfold generateReply in Hin; rewrite He in Hin.
    eapply Hres; [|exact Hin|exact Hid]; discriminate.
Qed.

Lemma yieldsReply_samples :
  yieldsReply (Completed None) = true
  /\ yieldsReply (Failed deviceLost false) = true
  /\ yieldsReply (Failed (mkThrown None (js "Symbol(boom)")) false) = false.
Proof. repeat split. Qed.

(** ** Falling back to the first candidate that loads *)

Lemma run_failing_prefix v fm attempts : forall i c w,
  cancelled c = false -> awaiting c = Some i ->
  i + List.length attempts < List.length fm ->
  Forall exhausts attempts ->
  error (app w) = None ->
  let cw := run (stepOf v fm) (flat_map failingAttempt attempts) (c, w) in
  cancelled (fst cw) = false
  /\ awaiting (fst cw) = Some (i + List.length attempts)
  /\ createCalls (snd cw)
     = (createCalls w
        ++ firstn (List.length attempts) (skipn (S i) fm))%list
  /\ triedModelsRef (app (snd cw))
     = (triedModelsRef (app w)
        ++ firstn (List.length attempts) (skipn (S i) fm))%list
  /\ error (app (snd cw)) = None
  /\ engine (app (snd cw)) = engine (app w).
Proof.
  induction attempts as [|[ps err] rest IH]; intros i c w Hc Ha Hi Hall Herr.
  - cbn; rewrite Nat.add_0_r, !app_nil_r; auto 6.
  - inversion Hall as [|? ? Hex Hrest]; subst.
    cbv zeta; cbn [flat_map].
    change (failingAttempt (ps, err))
      with (map Progress ps ++ [Rejected err])%list.
    rewrite !run_app.
    destruct (run_progress v fm ps c w) as (Hc1 & Hcalls1 & Hframe1 & _).
    destruct (run (stepOf v fm) (map Progress ps) (c, w)) as [c1 w1].
    cbn [fst snd] in Hc1, Hcalls1, Hframe1; subst c1.
    destruct Hframe1 as (_ & _ & _ & Heng1 & _ & _ & _ & Htried1).
    change (run (stepOf v fm) [Rejected err] (c, w1))
      with (stepOf v fm (Rejected err) (c, w1)).
    rewrite (step_rejected_live v fm c w1 i err Hc Ha).
    unfold exhausts in Hex; cbn [snd] in Hex; cbv zeta; rewrite Hex.
    set (w2 := onApp (setError (Some (messageOrSelf err))) w1).
    cbn [List.length] in Hi.
    assert (Hlt : i + 1 < List.length fm) by lia.
    destruct (loadModelOf_started v fm c (i + 1) w2 Hc Hlt)
      as (Hn & Hcalls & Htried & Herr3 & _ & _ & Heng & _).
    cbv zeta in Hn, Hcalls, Htried, Herr3, Heng.
    destruct (loadModelOf v fm c (i + 1) w2) as [w3 next].
    cbn [fst snd] in *; subst next.
    assert (Hi' : i + 1 + List.length rest < List.length fm) by lia.
    destruct (IH (i + 1) (mkClosure false (Some (i + 1))) w3
                eq_refl eq_refl Hi' Hrest Herr3)
      as (H1 & H2 & H3 & H4 & H5 & H6).
    cbv zeta in H1, H2, H3, H4, H5, H6.
    cbn [List.length].
    split; [exact H1|].
    split; [rewrite H2; f_equal; lia|].
    rewrite (skipn_nth_cons fm (S i) []) by lia.
    replace (S i) with (i + 1) by lia.
    cbn [firstn].
    split; [rewrite H3, Hcalls; subst w2; cbn; rewrite Hcalls1;
            now rewrite <- app_assoc|].
    split; [rewrite H4, Htried; subst w2; cbn; rewrite Htried1;
            now rewrite <- app_assoc|].
    split; [exact H5|].
    rewrite H6, Heng; subst w2; cbn; exact Heng1.
Qed.

(** X15.  The fallback reaches the first candidate that loads.  From the
    start of the effect with no engine held, if the attempts on the first
    [n] candidates from the start index are rejected with resource
    exhaustion errors and the next one is fulfilled, then that engine is
    stored with progress 100, [error] is [null], [isDownloading] is
    cleared, the factory was called for exactly those [n + 1] candidates
    in list order, and the audit list grew by the same. *)
Theorem fallback_stops_at_first_success v fm attempts ps created w0 :
  engine (app w0) = None ->
  firstIndex v fm (app w0) + List.length attempts < List.length fm ->
  Forall exhausts attempts ->
  let cw := run (stepOf v fm)
              (flat_map failingAttempt attempts
               ++ map Progress ps ++ [Resolved created])
              (useEffectOf v fm w0) in
  engine (app (snd cw)) = Some created
  /\ error (app (snd cw)) = None
  /\ downloadProgress (app (snd cw)) = 100%float
  /\ isDownloading (app (snd cw)) = false
  /\ awaiting (fst cw) = None
  /\ createCalls (snd cw)
     = (createCalls w0
        ++ firstn (S (List.length attempts))
             (skipn (firstIndex v fm (app w0)) fm))%list
  /\ triedModelsRef (app (snd cw))
     = (triedModelsRef (app w0)
        ++ firstn (S (List.length attempts))
             (skipn (firstIndex v fm (app w0)) fm))%list.
Proof.
  intros He Hlen Hall; cbv zeta.
  set (k := firstIndex v fm (app w0)) in *.
  destruct (useEffectOf_cases v fm w0)
    as [E | (Hlt & Hc & Hcalls & Htried & Herr & Heng)].
  - exfalso.
    pose proof (useEffectOf_unfold v fm w0 He) as U; rewrite E in U.
    destruct (loadModelOf_started v fm (mkClosure false None) k w0 eq_refl)
      as (Hn & _); [lia|].
    cbv zeta in Hn; inversion U as [[U1 U2]]; fold k in U1; congruence.
  - fold k in Hlt, Hc, Hcalls, Htried.
    destruct (useEffectOf v fm w0) as [c1 w1]; cbn [fst snd] in *; subst c1.
    rewrite !run_app.
    destruct (run_failing_prefix v fm attempts k
                (mkClosure false (Some k)) w1 eq_refl eq_refl Hlen Hall Herr)
      as (H1 & H2 & H3 & H4 & H5 & H6).
    cbv zeta in H1, H2, H3, H4, H5, H6.
    destruct (run (stepOf v fm) (flat_map failingAttempt attempts) _)
      as [c2 w2]; cbn [fst snd] in *.
    destruct (run_progress v fm ps c2 w2) as (Hc3 & Hcalls3 & Hframe3 & _).
    destruct (run (stepOf v fm) (map Progress ps) (c2, w2)) as [c3 w3].
    cbn [fst snd] in Hc3, Hcalls3, Hframe3; subst c3.
    destruct Hframe3 as (_ & _ & _ & _ & _ & _ & Herr3 & Htried3).
    change (run (stepOf v fm) [Resolved created] (c2, w3))
      with (stepOf v fm (Resolved created) (c2, w3)).
    rewrite (step_resolved_live v fm c2 w3 _ created H1 H2).
    cbn [fst snd awaiting app onApp createCalls engine downloadProgress
         error isDownloading triedModelsRef setDownloadProgress
         setIsDownloading setEngine].
    rewrite (firstn_plus 1 (List.length attempts)).
    rewrite (skipn_nth_cons fm k []) by exact Hlt.
    cbn [firstn skipn].
    rewrite Herr3, H5, Hcalls3, H3, Hcalls, Htried3, H4, Htried.
    rewrite <- !app_assoc.
    repeat split.
Qed.

Lemma fallback_stops_at_first_success_witness :
  let fm := AppV2.FALLBACK_MODELS in
  let w0 := onApp (setModelName (js "Llama-3.1-8B-Instruct-q4f16_1-MLC"))
              (mounted Message_jsx) in
  let cw := run (stepOf Message_jsx fm)
              (flat_map failingAttempt
                 [([report 0.5%float], deviceLost); ([], outOfMemory)]
               ++ map Progress [report 1%float]
               ++ [Resolved (EngineHandle 4)])
              (useEffectOf Message_jsx fm w0) in
  engine (app (snd cw)) = Some (EngineHandle 4)
  /\ error (app (snd cw)) = None
  /\ createCalls (snd cw)
     = [js "Llama-3.1-8B-Instruct-q4f16_1-MLC";
        js "Llama-3.2-3B-Instruct-q4f16_1-MLC";
        js "Llama-3.2-1B-Instruct-q4f16_1-MLC"].
Proof.
  intros fm w0 cw.
  destruct (fallback_stops_at_first_success Message_jsx fm
              [([report 0.5%float], deviceLost); ([], outOfMemory)]
              [report 1%float] (EngineHandle 4) w0)
    as (H1 & H2 & _ & _ & _ & H6 & _).
  - reflexivity.
  - vm_compute; lia.
  - repeat constructor.
  - split; [exact H1|]. split; [exact H2|exact H6].
Defined.
